(** * Fraud Prevention API (part2.py): model host and prediction endpoint

    A shallow embedding of [lifespan] and [predict] of [src/part2.py].

    - Numbers are IEEE-754 values of the Standard Library's [SpecFloat]:
      torch's float32 tensors at precision 24, Python floats at precision 53.
    - [app.state] is a finite map from attribute names to Python values.
    - The endpoint and the lifespan hooks run in a small state-and-exception
      monad over a [world]: the attributes of [app.state], the lines printed
      on stdout, and the log of the torch operations that [predict] has
      started. *)

From Stdlib Require Import ZArith Lia Bool SpecFloat.
From stdpp Require Import gmap strings list.

Open Scope Z_scope.
Open Scope string_scope.
Open Scope list_scope.

(** ** Floating-point numbers *)

Module Float.

Abbreviation f32 := spec_float (only parsing).
Abbreviation f64 := spec_float (only parsing).

#[global] Instance spec_float_inhabited : Inhabited spec_float := populate S754_nan.

Definition valid32 (x : f32) : Prop := valid_binary 24 128 x = true.
Definition valid64 (x : f64) : Prop := valid_binary 53 1024 x = true.

Definition sub32 : f32 → f32 → f32 := SFsub 24 128.
Definition div32 : f32 → f32 → f32 := SFdiv 24 128.

(** The literals [0.0] and [1.0] of a float32 tensor, and Python's [0.5]. *)
Definition zero32 : f32 := S754_zero false.
Definition one32 : f32 := S754_finite false 8388608 (-23).
Definition half64 : f64 := S754_finite false 4503599627370496 (-53).

(** [a > b] on Python floats. *)
Definition gt64 (a b : f64) : bool := SFltb b a.

(** [x == 0.0] on a float32: true of both signed zeros. *)
Definition is_zero32 (x : f32) : bool := SFeqb x zero32.

(** A Python [int] read as a C double ([PyFloat_AsDouble]): rounded to
    nearest-even, and an [OverflowError] ([None]) when the integer is too
    large for a double. *)
Definition f64_of_int (n : Z) : option f64 :=
  match binary_normalize 53 1024 n 0 false with
  | S754_infinity _ => None
  | x => Some x
  end.

(** The C cast of a double to a float. *)
Definition f32_of_f64 (x : f64) : f32 :=
  match x with
  | S754_finite s m e => binary_round 24 128 s m e
  | _ => x
  end.

(** A float32 widened to a Python float, as [Tensor.item()] returns it. *)
Definition f64_of_f32 (x : f32) : f64 :=
  match x with
  | S754_finite s m e => binary_round 53 1024 s m e
  | _ => x
  end.

End Float.

Import Float.

(** ** Tensors *)

(** A one-dimensional float32 tensor, and a two-dimensional one as its list
    of rows. *)
Abbreviation tensor1 := (list spec_float) (only parsing).
Abbreviation tensor2 := (list (list spec_float)) (only parsing).

(** Broadcasting of the last dimension: the two sizes are equal, or one of
    them is 1; any other pair of sizes is a shape error. *)
Definition broadcast_row (op : f32 → f32 → f32) (row v : tensor1) : option tensor1 :=
  if decide (length row = length v) then Some (zip_with op row v)
  else match v, row with
       | [y], _ => Some (map (λ x, op x y) row)
       | _, [x] => Some (map (op x) v)
       | _, _ => None
       end.

(** [t ∘ v] for a two-dimensional [t] and a one-dimensional [v]: [v] is
    applied to every row. *)
Definition broadcast2 (op : f32 → f32 → f32) (t : tensor2) (v : tensor1) : option tensor2 :=
  mapM (λ row, broadcast_row op row v) t.

(** The normalisation of [predict]: [(tensor - mean) / std]. *)
Definition normalize (t : tensor2) (mean std : tensor1) : option tensor2 :=
  broadcast2 sub32 t mean ≫= λ c, broadcast2 div32 c std.

(** The normalisation as the specification words it: elementwise
    [(value - mean[i]) / std[i]] on a feature vector. *)
Definition spec_normalize (v mean std : tensor1) : tensor1 :=
  imap (λ i x, div32 (sub32 x (mean !!! i)) (std !!! i)) v.

(** ** Python values, exceptions and the world *)

(** A loaded TorchScript module: an opaque callable from the normalised
    batch to an output tensor, given by the list of its elements. *)
Definition ScoringModel : Type := tensor2 → tensor1.

Inductive PyVal :=
| PyNone
| PyModel (m : ScoringModel)
| PyTensor (t : tensor1).

Inductive exn :=
| FileNotFoundError (msg : string)
| AttributeError (attr : string)
| TypeError (msg : string)
| RuntimeError (msg : string)
| OverflowError (msg : string)
| HTTPException (status_code : Z) (detail : string)
| KeyboardInterrupt
| SystemExit.

(** [isinstance(e, Exception)]: the last two classes derive from
    [BaseException] only. *)
Definition isinstance_Exception (e : exn) : bool :=
  match e with
  | KeyboardInterrupt | SystemExit => false
  | _ => true
  end.

(** [str(e)], as the f-string of [lifespan] prints it. *)
Definition str_exn (e : exn) : string :=
  match e with
  | FileNotFoundError msg | TypeError msg | RuntimeError msg | OverflowError msg => msg
  | AttributeError attr => "'State' object has no attribute '" +:+ attr +:+ "'"
  | HTTPException _ detail => detail
  | KeyboardInterrupt | SystemExit => ""
  end.

(** The torch operations of the request path: [predict] logs each of them
    when it starts. The calls that [lifespan] makes are not logged. *)
Inductive torch_op :=
| OpTensor
| OpSub (operand : PyVal)
| OpDiv (divisor : PyVal)
| OpForward (input : tensor2)
| OpSigmoid
| OpItem.

Record world := World {
  app_state : gmap string PyVal;
  stdout : list string;
  torch_log : list torch_op
}.

Inductive outcome (A : Type) :=
| Return (a : A)
| Raise (e : exn).
Arguments Return {A} a.
Arguments Raise {A} e.

Definition M (A : Type) : Type := world → outcome A * world.

#[global] Instance M_ret : MRet M := λ A a w, (Return a, w).
#[global] Instance M_bind : MBind M := λ A B k m w,
  match m w with
  | (Return a, w') => k a w'
  | (Raise e, w') => (Raise e, w')
  end.

Definition raise {A} (e : exn) : M A := λ w, (Raise e, w).

(** [try: body except ...: handler]: [handler e] is [None] when no clause
    matches [e], and the exception propagates. *)
Definition try_except {A} (body : M A) (handler : exn → option (M A)) : M A := λ w,
  match body w with
  | (Return a, w') => (Return a, w')
  | (Raise e, w') =>
      match handler e with
      | Some h => h w'
      | None => (Raise e, w')
      end
  end.

Definition getattr (name : string) : M PyVal := λ w,
  match app_state w !! name with
  | Some v => (Return v, w)
  | None => (Raise (AttributeError name), w)
  end.

Definition setattr (name : string) (v : PyVal) : M unit := λ w,
  (Return (), World (<[name := v]> (app_state w)) (stdout w) (torch_log w)).

Definition print (line : string) : M unit := λ w,
  (Return (), World (app_state w) (stdout w ++ [line]) (torch_log w)).

(** The world after one more torch operation has started. *)
Definition logged (op : torch_op) (w : world) : world :=
  World (app_state w) (stdout w) (torch_log w ++ [op]).

Definition tick (op : torch_op) : M unit := λ w, (Return (), logged op w).

(** ** Request and response models *)

Record TransactionFeatures := {
  amount : f64;
  time_of_day : Z;
  mismatch : Z;
  frequency : Z
}.

Record PredictionResponse := {
  probability : f64;
  is_fraudulent : bool
}.

(** ** The torch operations used by the endpoint *)

(** What the source leaves to the torch runtime: the elementwise logistic
    function on a float32. *)
Class TorchRuntime := { sigmoid : f32 → f32 }.

Inductive py_scalar :=
| PyFloat (x : f64)
| PyInt (n : Z).

Definition scalar_to_f32 (v : py_scalar) : option f32 :=
  match v with
  | PyFloat x => Some (f32_of_f64 x)
  | PyInt n => f32_of_f64 <$> f64_of_int n
  end.

(** [torch.tensor(rows, dtype=torch.float32)] on a nested list of Python
    scalars. *)
Definition torch_tensor (rows : list (list py_scalar)) : M tensor2 :=
  tick OpTensor;;
  match mapM (mapM scalar_to_f32) rows with
  | Some t => mret t
  | None => raise (OverflowError "int too large to convert to float")
  end.

(** [t - v] and [t / v] for a tensor [t] and an attribute value [v]. *)
Definition tensor_binop (tag : PyVal → torch_op) (op : f32 → f32 → f32)
    (t : tensor2) (v : PyVal) : M tensor2 :=
  tick (tag v);;
  match v with
  | PyTensor u =>
      match broadcast2 op t u with
      | Some r => mret r
      | None => raise (RuntimeError "The size of tensor a must match the size of tensor b")
      end
  | _ => raise (TypeError "unsupported operand type(s)")
  end.

Definition tensor_sub : tensor2 → PyVal → M tensor2 := tensor_binop OpSub sub32.
Definition tensor_div : tensor2 → PyVal → M tensor2 := tensor_binop OpDiv div32.

(** [f(x)]: only a loaded module is callable. *)
Definition call (f : PyVal) (x : tensor2) : M tensor1 :=
  match f with
  | PyModel m => tick (OpForward x);; mret (m x)
  | PyNone => raise (TypeError "'NoneType' object is not callable")
  | PyTensor _ => raise (TypeError "'Tensor' object is not callable")
  end.

Definition torch_sigmoid `{TorchRuntime} (t : tensor1) : M tensor1 :=
  tick OpSigmoid;; mret (map sigmoid t).

(** [t.item()]: the single element of [t] as a Python float. *)
Definition item (t : tensor1) : M f64 :=
  tick OpItem;;
  match t with
  | [x] => mret (f64_of_f32 x)
  | _ => raise (RuntimeError "a Tensor with this number of elements cannot be converted to Scalar")
  end.

(** ** lifespan *)

(** [torch.tensor([0.0, 0.0, 0.0, 0.0])] and [torch.tensor([1.0, 1.0, 1.0, 1.0])]. *)
Definition placeholder_mean : tensor1 := [zero32; zero32; zero32; zero32].
Definition placeholder_std : tensor1 := [one32; one32; one32; one32].

(** The outcome of [torch.jit.load("fraud_prevention_model.pt")] followed
    by [model.eval()]. *)
Inductive load_outcome :=
| LoadOk (m : ScoringModel)
| LoadRaises (e : exn).

(** The [except] clauses of [lifespan], in order. *)
Definition lifespan_handler (e : exn) : option (M unit) :=
  match e with
  | FileNotFoundError _ =>
      Some (print "Error: Model file 'fraud_prevention_model.pt' not found.";;
            setattr "model" PyNone)
  | _ =>
      if isinstance_Exception e then
        Some (print ("An error occurred while loading the model: " +:+ str_exn e);;
              setattr "model" PyNone)
      else None
  end.

(** [lifespan] up to its [yield]. *)
Definition lifespan_startup (o : load_outcome) : M unit :=
  try_except
    (match o with
     | LoadOk m =>
         setattr "model" (PyModel m);;
         print "PyTorch model loaded successfully."
     | LoadRaises e => raise e
     end)
    lifespan_handler;;
  setattr "mean" (PyTensor placeholder_mean);;
  setattr "std" (PyTensor placeholder_std).

(** [lifespan] after its [yield]. *)
Definition lifespan_shutdown : M unit :=
  setattr "model" PyNone.

(** ** predict *)

Definition predict `{TorchRuntime} (features : TransactionFeatures) : M PredictionResponse :=
  model ← getattr "model";
  match model with
  | PyNone => raise (HTTPException 503 "Model is not loaded.")
  | _ =>
      tensor ← torch_tensor [[PyFloat (amount features); PyInt (time_of_day features);
                              PyInt (mismatch features); PyInt (frequency features)]];
      mean ← getattr "mean";
      centred ← tensor_sub tensor mean;
      std ← getattr "std";
      n_tensor ← tensor_div centred std;
      logits ← call model n_tensor;
      probs ← torch_sigmoid logits;
      probability ← item probs;
      mret {| probability := probability; is_fraudulent := gt64 probability half64 |}
  end.

(** Successive calls of [predict], in order. *)
Fixpoint serve `{TorchRuntime} (requests : list TransactionFeatures) (w : world)
    : list (outcome PredictionResponse) * world :=
  match requests with
  | [] => ([], w)
  | f :: rest =>
      let '(o, w') := predict f w in
      let '(os, w'') := serve rest w' in
      (o :: os, w'')
  end.

(** ** The route: body validation and error responses *)

(** A request body after JSON decoding. *)
#[warnings="-register-all"]
Inductive JSON :=
| JNull
| JBool (b : bool)
| JInt (n : Z)
| JFloat (x : f64)
| JStr (s : string)
| JArr (items : list JSON)
| JObj (fields : gmap string JSON).

(** What the source leaves to pydantic: the validators of the annotations
    [float] and [int], which return the field's value or reject the input. *)
Class FieldValidators := {
  validate_float : JSON → option f64;
  validate_int : JSON → option Z
}.

(** Validation against [TransactionFeatures]: the body is an object, each of
    the four annotated fields has no default and is looked up and validated
    in declaration order; the class sets no [model_config], so keys that are
    not fields are left unread. *)
Definition validate_TransactionFeatures `{FieldValidators} (body : JSON)
    : option TransactionFeatures :=
  match body with
  | JObj fields =>
      a ← fields !! "amount" ≫= validate_float;
      t ← fields !! "time_of_day" ≫= validate_int;
      m ← fields !! "mismatch" ≫= validate_int;
      f ← fields !! "frequency" ≫= validate_int;
      Some {| amount := a; time_of_day := t; mismatch := m; frequency := f |}
  | _ => None
  end.

Inductive content :=
| Prediction (r : PredictionResponse)
| Detail (detail : string)
| ValidationErrors.

Record http_response := {
  status : Z;
  body : content
}.

(** [POST /predict]: the framework validates the body, answers 422 when it
    does not validate, calls [predict] otherwise, and turns an
    [HTTPException] into a response of its status and any other exception
    into a 500. *)
Definition post_predict `{TorchRuntime} `{FieldValidators} (request_body : JSON)
    : M http_response := λ w,
  match validate_TransactionFeatures request_body with
  | None => (Return {| status := 422; body := ValidationErrors |}, w)
  | Some features =>
      match predict features w with
      | (Return r, w') => (Return {| status := 200; body := Prediction r |}, w')
      | (Raise (HTTPException code detail), w') =>
          (Return {| status := code; body := Detail detail |}, w')
      | (Raise _, w') =>
          (Return {| status := 500; body := Detail "Internal Server Error" |}, w')
      end
  end.

(** ** The life of the service *)

(** What happens once the service has started: a request is answered, or
    the service shuts down. *)
Inductive server_step `{TorchRuntime} `{FieldValidators} : world → world → Prop :=
| step_request (request_body : JSON) (w : world) :
    server_step w (post_predict request_body w).2
| step_shutdown (w : world) :
    server_step w (lifespan_shutdown w).2.

(** The worlds in which the service can be after a startup that returned. *)
Inductive reachable `{TorchRuntime} `{FieldValidators} : world → Prop :=
| reach_startup (o : load_outcome) (w0 w : world) :
    lifespan_startup o w0 = (Return (), w) → reachable w
| reach_step (w w' : world) :
    reachable w → server_step w w' → reachable w'.

(** ** Instances used in the examples *)

(** A three-valued stand-in for the logistic function: exact at 0 and
    saturated elsewhere. *)
Definition step_sigmoid (x : f32) : f32 :=
  match SFcompare x zero32 with
  | Some Lt => zero32
  | Some Eq => S754_finite false 8388608 (-24)
  | Some Gt => one32
  | None => S754_nan
  end.

Definition step_runtime : TorchRuntime := {| sigmoid := step_sigmoid |}.

(** *** pydantic's validators in lax mode

    The fields of [TransactionFeatures] are validated in pydantic's default
    (lax) mode, which converts values of other JSON types where it can. *)

Module Lax.

Import Stdlib.Strings.Ascii.

Definition char_code (c : Ascii.ascii) : Z := Z.of_N (Ascii.N_of_ascii c).

Definition is_space (c : Ascii.ascii) : bool :=
  ((char_code c =? 32) || ((9 <=? char_code c) && (char_code c <=? 13)))%Z.

Definition digit_value (c : Ascii.ascii) : option Z :=
  if ((48 <=? char_code c) && (char_code c <=? 57))%Z then Some (char_code c - 48)%Z
  else None.

Definition is_digit (c : Ascii.ascii) : bool :=
  match digit_value c with
  | Some _ => true
  | None => false
  end.

Definition to_lower (c : Ascii.ascii) : Ascii.ascii :=
  if ((65 <=? char_code c) && (char_code c <=? 90))%Z
  then Ascii.ascii_of_N (Z.to_N (char_code c + 32))
  else c.

Fixpoint drop_spaces (l : list Ascii.ascii) : list Ascii.ascii :=
  match l with
  | c :: l' => if is_space c then drop_spaces l' else l
  | [] => []
  end.

(** [s.strip()]: without the white space at both ends. *)
Definition strip (l : list Ascii.ascii) : list Ascii.ascii :=
  rev (drop_spaces (rev (drop_spaces l))).

(** The longest prefix of decimal digits, a single underscore being allowed
    between two digits, and what follows it. *)
Fixpoint take_digits (l : list Ascii.ascii) : list Z * list Ascii.ascii :=
  match l with
  | c :: l' =>
      match digit_value c with
      | Some d =>
          match l' with
          | "_"%char :: ((c2 :: _) as l'') =>
              if is_digit c2 then let '(ds, r) := take_digits l'' in (d :: ds, r)
              else ([d], l')
          | _ => let '(ds, r) := take_digits l' in (d :: ds, r)
          end
      | None => ([], l)
      end
  | [] => ([], [])
  end.

Definition number_of_digits (ds : list Z) : Z :=
  foldl (λ acc d, 10 * acc + d)%Z 0%Z ds.

Definition take_sign (l : list Ascii.ascii) : bool * list Ascii.ascii :=
  match l with
  | "-"%char :: r => (true, r)
  | "+"%char :: r => (false, r)
  | _ => (false, l)
  end.

(** The double nearest to [± m * 10^e], ties to even. *)
Definition decimal_to_f64 (neg : bool) (m e : Z) : f64 :=
  match m with
  | Z.pos p =>
      if (0 <=? e)%Z then binary_round 53 1024 neg (p * Z.to_pos (10 ^ e)) 0
      else SFdiv 53 1024 (S754_finite neg p 0)
                         (S754_finite false (Z.to_pos (10 ^ (- e))) 0)
  | _ => S754_zero neg
  end.

(** A string read as a float: white space around it is dropped; then an
    optional sign followed by [inf], [infinity] or [nan] in any case, or by
    a decimal number with an optional fraction and an optional exponent. *)
Definition float_of_string (s : string) : option f64 :=
  let '(neg, l) := take_sign (strip (String.list_ascii_of_string s)) in
  let name := String.string_of_list_ascii (map to_lower l) in
  if (name =? "inf")%string || (name =? "infinity")%string then Some (S754_infinity neg)
  else if (name =? "nan")%string then Some S754_nan
  else
    let '(ip, r1) := take_digits l in
    let '(fp, r2) := match r1 with
                     | "."%char :: r => take_digits r
                     | _ => ([], r1)
                     end in
    match ip ++ fp with
    | [] => None
    | ds =>
        let m := number_of_digits ds in
        let k := Z.of_nat (length fp) in
        match r2 with
        | [] => Some (decimal_to_f64 neg m (- k))
        | c :: r3 =>
            if (to_lower c =? "e")%char then
              let '(eneg, r4) := take_sign r3 in
              match take_digits r4 with
              | ((_ :: _) as ed, []) =>
                  let e := number_of_digits ed in
                  Some (decimal_to_f64 neg m ((if eneg then - e else e) - k))
              | _ => None
              end
            else None
        end
    end.

(** A string read as an integer: white space around it is dropped; then an
    optional sign and decimal digits, optionally followed by a point and
    nothing but zeros. *)
Definition int_of_string (s : string) : option Z :=
  let '(neg, l) := take_sign (strip (String.list_ascii_of_string s)) in
  match take_digits l with
  | ((_ :: _) as ds, r) =>
      let n := if neg then (- number_of_digits ds)%Z else number_of_digits ds in
      match r with
      | [] => Some n
      | "."%char :: zeros =>
          if forallb (λ c, (c =? "0")%char) zeros then Some n else None
      | _ => None
      end
  | _ => None
  end.

(** A float read as an integer: it must be finite, have no fractional
    part, and lie strictly between [-2^63] and [2^63]. *)
Definition int_of_float (x : f64) : option Z :=
  match x with
  | S754_zero _ => Some 0%Z
  | S754_finite s m e =>
      let v := if (0 <=? e)%Z then Some (Z.pos m * 2 ^ e)%Z
               else if (Z.pos m mod 2 ^ (- e) =? 0)%Z then Some (Z.pos m / 2 ^ (- e))%Z
               else None in
      match v with
      | Some n => if (n <? 2 ^ 63)%Z then Some (if s then (- n)%Z else n) else None
      | None => None
      end
  | _ => None
  end.

(** The validator of a [float] field: a number is taken as it is (an
    integer is converted, and rejected when too large for a double), a
    boolean counts as 1.0 or 0.0, a string is parsed. *)
Definition validate_float (j : JSON) : option f64 :=
  match j with
  | JFloat x => Some x
  | JInt n => f64_of_int n
  | JBool b => Some (if b then S754_finite false 4503599627370496 (-52) else S754_zero false)
  | JStr s => float_of_string s
  | JNull | JArr _ | JObj _ => None
  end.

(** The validator of an [int] field: an integer is taken as it is, a
    boolean counts as 1 or 0, a float must be integral, a string is
    parsed. *)
Definition validate_int (j : JSON) : option Z :=
  match j with
  | JInt n => Some n
  | JBool b => Some (if b then 1 else 0)%Z
  | JFloat x => int_of_float x
  | JStr s => int_of_string s
  | JNull | JArr _ | JObj _ => None
  end.

End Lax.

Definition pydantic_validators : FieldValidators := {|
  validate_float := Lax.validate_float;
  validate_int := Lax.validate_int
|}.

(** A fixed linear model: one logit [b + Σ w_i x_i] per row. *)
Definition linear_model (weights : tensor1) (bias : f32) : ScoringModel := λ t,
  map (λ row, foldl (SFadd 24 128) bias (zip_with (SFmul 24 128) row weights)) t.

Definition empty_world : world := World ∅ [] [].

(** The features of the specification's example. *)
Definition example_features : TransactionFeatures := {|
  amount := S754_finite false 8796093022208000 (-44);
  time_of_day := 14;
  mismatch := 1;
  frequency := 3
|}.

(** A model whose logit is 0 on every input, the world after a startup that
    loaded it, and the world after a startup that found no artifact. *)
Definition zero_model : ScoringModel :=
  linear_model [zero32; zero32; zero32; zero32] zero32.

Definition loaded_world : world :=
  (lifespan_startup (LoadOk zero_model) empty_world).2.

Definition absent_world : world :=
  (lifespan_startup
     (LoadRaises (FileNotFoundError "No such file: 'fraud_prevention_model.pt'"))
     empty_world).2.

(** ** Notions used in the statements *)

(** [m] leaves the attributes and stdout as they were; it may extend the
    log of torch operations. *)
Definition read_only {A} (m : M A) : Prop :=
  ∀ w, app_state (m w).2 = app_state w ∧ stdout (m w).2 = stdout w.

(** Two worlds that give the same value to every attribute of [names]. *)
Definition agree_on (names : list string) (w1 w2 : world) : Prop :=
  ∀ k, k ∈ names → app_state w1 !! k = app_state w2 !! k.

(** The outcome of [m] is a function of the attributes [names] alone. *)
Definition reads_only {A} (names : list string) (m : M A) : Prop :=
  ∀ w1 w2, agree_on names w1 w2 →
    (m w1).1 = (m w2).1 ∧ agree_on names (m w1).2 (m w2).2.

(** The torch operations that [m] starts when it runs in [w]. *)
Definition new_ops {A} (m : M A) (w : world) : list torch_op :=
  drop (length (torch_log w)) (torch_log (m w).2).

(** Run in a world whose attributes are [st], the computation [m] keeps the
    attributes, starts only torch operations that satisfy [P], and returns
    only values that satisfy [Q]. *)
Definition logs {A} (st : gmap string PyVal) (P : torch_op → Prop) (Q : A → Prop)
    (m : M A) : Prop :=
  ∀ w, app_state w = st →
    app_state (m w).2 = st ∧
    (∃ l, torch_log (m w).2 = torch_log w ++ l ∧ Forall P l) ∧
    (∀ a, (m w).1 = Return a → Q a).

(** The attributes after a startup that returned: the model slot holds
    [model], and [mean] and [std] hold the placeholders. *)
Definition started (model : PyVal) (w : world) : gmap string PyVal :=
  <["std" := PyTensor placeholder_std]>
    (<["mean" := PyTensor placeholder_mean]>
       (<["model" := model]> (app_state w))).

(** The line that [lifespan] prints for a load error [e]. *)
Definition load_error_line (e : exn) : string :=
  match e with
  | FileNotFoundError _ => "Error: Model file 'fraud_prevention_model.pt' not found."
  | _ => "An error occurred while loading the model: " +:+ str_exn e
  end.

(** The invariant of the running service: the normalisation parameters are
    the placeholders. *)
Definition placeholders_set (w : world) : Prop :=
  app_state w !! "mean" = Some (PyTensor placeholder_mean) ∧
  app_state w !! "std" = Some (PyTensor placeholder_std).

(** [x] and [y] denote the same number: they are the same special value, or
    finite with the same sign and [m * 2^e = m' * 2^e']. *)
Definition same_number (x y : spec_float) : Prop :=
  match x, y with
  | S754_finite s m e, S754_finite s' m' e' =>
      s = s' ∧ (e' ≤ e)%Z ∧ Z.pos m' = (Z.pos m * 2 ^ (e - e'))%Z
  | _, _ => x = y
  end.

(** The feature vector in the order the specification fixes:
    [[amount, time_of_day, mismatch, frequency]], as float32. *)
Definition feature_vector (f : TransactionFeatures) : option tensor1 :=
  mapM scalar_to_f32
    [PyFloat (amount f); PyInt (time_of_day f); PyInt (mismatch f); PyInt (frequency f)].

(** A float32 tensor of [n] columns: every row has [n] elements, and every
    element is a float32. *)
Definition tensor_of_width (n : nat) (t : tensor2) : Prop :=
  Forall (λ row, length row = n ∧ Forall valid32 row) t.

(** The names of the fields of [TransactionFeatures]. *)
Definition field_names : list string :=
  ["amount"; "time_of_day"; "mismatch"; "frequency"].

(** The body of the specification's example, and the same body with a key
    that is not a field. *)
Definition example_body : gmap string JSON :=
  <["amount" := JFloat (amount example_features)]>
    (<["time_of_day" := JInt 14]> (<["mismatch" := JInt 1]> (<["frequency" := JInt 3]> ∅))).

Definition example_body_extra : gmap string JSON :=
  <["card_number" := JStr "4111"]> example_body.

(** The float32 tensor that [predict] builds from [example_features]. *)
Definition example_tensor : tensor2 :=
  [[S754_finite false 16384000 (-15); S754_finite false 14680064 (-20);
    S754_finite false 8388608 (-23); S754_finite false 12582912 (-22)]].

(** ** Further notions and instances *)

(** Every exception that [m] raises satisfies [E]. *)
Definition raises_only {A} (E : exn → Prop) (m : M A) : Prop :=
  ∀ w e, (m w).1 = Raise e → E e.

(** [e] is not an [HTTPException]. *)
Definition not_http (e : exn) : Prop :=
  match e with
  | HTTPException _ _ => False
  | _ => True
  end.

(** [x] is a positive number: [+inf], or finite with a positive sign. *)
Definition positive_number (x : f64) : Prop :=
  match x with
  | S754_infinity false | S754_finite false _ _ => True
  | _ => False
  end.

(** The six torch operations of a call of [predict] that reaches [item], in
    the order in which they start. *)
Definition scoring_ops (mean std : tensor1) (n : tensor2) : list torch_op :=
  [OpTensor; OpSub (PyTensor mean); OpDiv (PyTensor std); OpForward n; OpSigmoid; OpItem].

(** A model that answers with two logits, a model whose logit is NaN, and
    the worlds after a startup that loaded them. *)
Definition two_logit_model : ScoringModel := λ _, [zero32; zero32].
Definition nan_model : ScoringModel := λ _, [S754_nan].

Definition two_logit_world : world :=
  (lifespan_startup (LoadOk two_logit_model) empty_world).2.

Definition nan_world : world :=
  (lifespan_startup (LoadOk nan_model) empty_world).2.

(** [model] is set, to [None] or to a loaded module. *)
Definition model_set (w : world) : Prop :=
  app_state w !! "model" = Some PyNone ∨
  ∃ m, app_state w !! "model" = Some (PyModel m).

(** ** Bodies that the schema rejects *)

(** A value that does not convert to a [float]: null, an array, an object, a
    string that is not a number, an integer too large for a double. *)
Definition bad_float (j : JSON) : Prop :=
  match j with
  | JNull | JArr _ | JObj _ => True
  | JStr s => Lax.float_of_string s = None
  | JInt n => f64_of_int n = None
  | JFloat _ | JBool _ => False
  end.

(** A value that does not convert to an [int]: null, an array, an object, a
    string that is not an integer, a float that is not one (it has a
    fractional part, is infinite or NaN, or is beyond the 64-bit range). *)
Definition bad_int (j : JSON) : Prop :=
  match j with
  | JNull | JArr _ | JObj _ => True
  | JStr s => Lax.int_of_string s = None
  | JFloat x => Lax.int_of_float x = None
  | JInt _ | JBool _ => False
  end.

(** The field [name] is missing from [fields], or its value is [bad]. *)
Definition unusable (bad : JSON → Prop) (fields : gmap string JSON) (name : string) : Prop :=
  match fields !! name with
  | None => True
  | Some j => bad j
  end.

(** The body is not an object, or one of the four fields is unusable. *)
Definition rejected_body (request_body : JSON) : Prop :=
  match request_body with
  | JObj fields =>
      unusable bad_float fields "amount" ∨
      unusable bad_int fields "time_of_day" ∨
      unusable bad_int fields "mismatch" ∨
      unusable bad_int fields "frequency"
  | _ => True
  end.

(** The example once more, with values of other JSON types: a string for
    [amount] and [frequency], a float for [time_of_day], a boolean for
    [mismatch], and a key that is not a field. *)
Definition coerced_body : gmap string JSON :=
  <["amount" := JStr "500"]>
    (<["time_of_day" := JFloat (S754_finite false 7881299347898368 (-49))]>
       (<["mismatch" := JBool true]>
          (<["frequency" := JStr "3"]>
             (<["card_number" := JStr "4111"]> ∅)))).

(** * Properties *)

(** ** Computations that only read [app.state] *)

Section Monad_lemmas.
Context {A B : Type}.

Lemma read_only_ret (a : A) : read_only (mret a).
Proof. intros w. split; reflexivity. Qed.

Lemma read_only_raise (e : exn) : read_only (@raise A e).
Proof. intros w. split; reflexivity. Qed.

Lemma read_only_bind (m : M A) (k : A → M B) :
  read_only m → (∀ a, read_only (k a)) → read_only (m ≫= k).
Proof.
  intros Hm Hk w. specialize (Hm w).
  unfold mbind, M_bind. destruct (m w) as [[a|e] w']; simpl in *.
  - destruct (Hk a w') as [-> ->]. exact Hm.
  - exact Hm.
Qed.

Lemma reads_only_ret names (a : A) : reads_only names (mret a).
Proof. intros w1 w2 Hw. split; [reflexivity | exact Hw]. Qed.

Lemma reads_only_raise names (e : exn) : reads_only names (@raise A e).
Proof. intros w1 w2 Hw. split; [reflexivity | exact Hw]. Qed.

Lemma reads_only_bind names (m : M A) (k : A → M B) :
  reads_only names m → (∀ a, reads_only names (k a)) → reads_only names (m ≫= k).
Proof.
  intros Hm Hk w1 w2 Hw. destruct (Hm w1 w2 Hw) as [Ho Hw'].
  unfold mbind, M_bind.
  destruct (m w1) as [o1 w1'], (m w2) as [o2 w2']; simpl in *. subst o2.
  destruct o1 as [a|e]; [apply Hk; exact Hw' | split; [reflexivity | exact Hw']].
Qed.

End Monad_lemmas.

Lemma read_only_getattr name : read_only (getattr name).
Proof. intros w. unfold getattr. destruct (app_state w !! name); split; reflexivity. Qed.

Lemma read_only_tick op : read_only (tick op).
Proof. intros w. split; reflexivity. Qed.

Lemma reads_only_getattr names name : name ∈ names → reads_only names (getattr name).
Proof.
  intros Hin w1 w2 Hw. unfold getattr. rewrite (Hw name Hin).
  destruct (app_state w2 !! name); split; solve [reflexivity | exact Hw].
Qed.

Lemma reads_only_tick names op : reads_only names (tick op).
Proof. intros w1 w2 Hw. split; [reflexivity | exact Hw]. Qed.

Create HintDb frame.

#[local] Hint Resolve read_only_ret read_only_raise read_only_getattr read_only_tick
  reads_only_ret reads_only_raise reads_only_tick : frame.

(** Splits a sequence of monadic steps into its steps. *)
Ltac frame_steps :=
  repeat first
    [ solve [auto with frame]
    | apply reads_only_getattr; set_solver
    | apply read_only_bind; [| intros ?]
    | apply reads_only_bind; [| intros ?] ].

Lemma read_only_torch_tensor rows : read_only (torch_tensor rows).
Proof. unfold torch_tensor. frame_steps. destruct (mapM _ rows); auto with frame. Qed.

Lemma read_only_tensor_binop tag op t v : read_only (tensor_binop tag op t v).
Proof.
  unfold tensor_binop. frame_steps.
  destruct v; auto with frame. destruct (broadcast2 op t t0); auto with frame.
Qed.

Lemma read_only_call f x : read_only (call f x).
Proof. destruct f; simpl; frame_steps. Qed.

Lemma read_only_item t : read_only (item t).
Proof. unfold item. frame_steps. destruct t as [|x [|y t]]; auto with frame. Qed.

Lemma reads_only_torch_tensor names rows : reads_only names (torch_tensor rows).
Proof. unfold torch_tensor. frame_steps. destruct (mapM _ rows); auto with frame. Qed.

Lemma reads_only_tensor_binop names tag op t v : reads_only names (tensor_binop tag op t v).
Proof.
  unfold tensor_binop. frame_steps.
  destruct v; auto with frame. destruct (broadcast2 op t t0); auto with frame.
Qed.

Lemma reads_only_call names f x : reads_only names (call f x).
Proof. destruct f; simpl; frame_steps. Qed.

Lemma reads_only_item names t : reads_only names (item t).
Proof. unfold item. frame_steps. destruct t as [|x [|y t]]; auto with frame. Qed.

#[local] Hint Resolve read_only_torch_tensor read_only_tensor_binop read_only_call
  read_only_item reads_only_torch_tensor reads_only_tensor_binop reads_only_call
  reads_only_item : frame.

Section Predict.
Context `{TorchRuntime}.

Lemma read_only_torch_sigmoid t : read_only (torch_sigmoid t).
Proof. unfold torch_sigmoid. frame_steps. Qed.

Lemma reads_only_torch_sigmoid names t : reads_only names (torch_sigmoid t).
Proof. unfold torch_sigmoid. frame_steps. Qed.

Lemma read_only_predict features : read_only (predict features).
Proof.
  unfold predict, tensor_sub, tensor_div. frame_steps.
  destruct a; frame_steps; auto using read_only_torch_sigmoid.
Qed.

Lemma reads_only_predict features :
  reads_only ["model"; "mean"; "std"] (predict features).
Proof.
  unfold predict, tensor_sub, tensor_div. frame_steps.
  destruct a; frame_steps; auto using reads_only_torch_sigmoid.
Qed.

Lemma predict_model_absent features w :
  app_state w !! "model" = Some PyNone →
  predict features w = (Raise (HTTPException 503 "Model is not loaded."), w).
Proof.
  intros Hm. unfold predict, mbind, M_bind, getattr. rewrite Hm. reflexivity.
Qed.

End Predict.

(** ** The torch operations that a computation starts *)

Section Logs.
Context (st : gmap string PyVal) (P : torch_op → Prop).

Lemma logs_ret {A} (Q : A → Prop) (a : A) : Q a → logs st P Q (mret a).
Proof.
  intros Ha w Hw. split; [exact Hw |]. split.
  - exists []. rewrite app_nil_r. split; [reflexivity | constructor].
  - intros b [= <-]. exact Ha.
Qed.

Lemma logs_raise {A} (Q : A → Prop) (e : exn) : logs st P Q (raise e).
Proof.
  intros w Hw. split; [exact Hw |]. split.
  - exists []. rewrite app_nil_r. split; [reflexivity | constructor].
  - intros b Hb. discriminate Hb.
Qed.

Lemma logs_bind {A B} (Q : A → Prop) (R : B → Prop) (m : M A) (k : A → M B) :
  logs st P Q m → (∀ a, Q a → logs st P R (k a)) → logs st P R (m ≫= k).
Proof.
  intros Hm Hk w Hw. destruct (Hm w Hw) as (Hst & (l & Hl & HP) & HQ).
  unfold mbind, M_bind. destruct (m w) as [[a|e] w1]; simpl in *.
  - destruct (Hk a (HQ a eq_refl) w1 Hst) as (Hst' & (l' & Hl' & HP') & HR).
    split; [exact Hst' |]. split; [| exact HR].
    exists (l ++ l'). rewrite Hl', Hl, app_assoc. split; [reflexivity |].
    apply Forall_app. split; assumption.
  - split; [exact Hst |]. split; [eauto | intros b Hb; discriminate Hb].
Qed.

Lemma logs_getattr (name : string) :
  logs st P (λ v, st !! name = Some v) (getattr name).
Proof.
  intros w Hw. unfold getattr. rewrite Hw.
  destruct (st !! name) as [v|]; simpl; (split; [exact Hw |]); split;
    try (exists []; rewrite app_nil_r; split; [reflexivity | constructor]).
  - intros a [= <-]. reflexivity.
  - intros a Ha. discriminate Ha.
Qed.

Lemma logs_tick (op : torch_op) : P op → logs st P (λ _, True) (tick op).
Proof.
  intros Hop w Hw. split; [exact Hw |]. split; [| trivial].
  exists [op]. split; [reflexivity | repeat constructor; exact Hop].
Qed.

Lemma logs_torch_tensor rows : P OpTensor → logs st P (λ _, True) (torch_tensor rows).
Proof.
  intros HP. unfold torch_tensor.
  eapply logs_bind; [apply logs_tick, HP |]. intros _ _.
  destruct (mapM _ rows); [apply logs_ret; trivial | apply logs_raise].
Qed.

Lemma logs_tensor_binop tag op t v :
  P (tag v) → logs st P (λ _, True) (tensor_binop tag op t v).
Proof.
  intros HP. unfold tensor_binop.
  eapply logs_bind; [apply logs_tick, HP |]. intros _ _.
  destruct v as [| |u]; try apply logs_raise.
  destruct (broadcast2 op t u); [apply logs_ret; trivial | apply logs_raise].
Qed.

Lemma logs_call f x : P (OpForward x) → logs st P (λ _, True) (call f x).
Proof.
  intros HP. destruct f; simpl; try apply logs_raise.
  eapply logs_bind; [apply logs_tick, HP |]. intros _ _. apply logs_ret. trivial.
Qed.

Lemma logs_torch_sigmoid `{TorchRuntime} t :
  P OpSigmoid → logs st P (λ _, True) (torch_sigmoid t).
Proof.
  intros HP. unfold torch_sigmoid.
  eapply logs_bind; [apply logs_tick, HP |]. intros _ _. apply logs_ret. trivial.
Qed.

Lemma logs_item t : P OpItem → logs st P (λ _, True) (item t).
Proof.
  intros HP. unfold item.
  eapply logs_bind; [apply logs_tick, HP |]. intros _ _.
  destruct t as [|x [|y t]]; [apply logs_raise | apply logs_ret; trivial | apply logs_raise].
Qed.

End Logs.

(** Every division that [predict] starts has the attribute [std] as its
    divisor. *)
Lemma predict_divides_by_std `{TorchRuntime} features w :
  logs (app_state w) (λ op, ∀ v, op = OpDiv v → app_state w !! "std" = Some v)
    (λ _, True) (predict features).
Proof.
  unfold predict, tensor_sub, tensor_div.
  eapply logs_bind; [apply logs_getattr |]. intros model _.
  destruct model; [apply logs_raise | |];
    (eapply logs_bind; [apply logs_torch_tensor; discriminate |]; intros tensor _;
     eapply logs_bind; [apply logs_getattr |]; intros mean _;
     eapply logs_bind; [apply logs_tensor_binop; discriminate |]; intros centred _;
     eapply logs_bind; [apply logs_getattr |]; intros std Hstd;
     eapply logs_bind; [apply logs_tensor_binop; intros v [= <-]; exact Hstd |];
     intros n_tensor _;
     eapply logs_bind; [apply logs_call; discriminate |]; intros logits _;
     eapply logs_bind; [apply logs_torch_sigmoid; discriminate |]; intros probs _;
     eapply logs_bind; [apply logs_item; discriminate |]; intros p _;
     apply logs_ret; trivial).
Qed.

Lemma new_ops_logs {A} (m : M A) st P Q w :
  logs st P Q m → app_state w = st → Forall P (new_ops m w).
Proof.
  intros Hm Hw. destruct (Hm w Hw) as (_ & (l & Hl & HP) & _).
  unfold new_ops. rewrite Hl, drop_app_length. exact HP.
Qed.

(** ** The model is absent *)

Section Absent.
Context `{TorchRuntime}.

(** C1. While [app.state.model] is [None], every call of [predict] raises
    [HTTPException(503, "Model is not loaded.")] and leaves the world as it
    was: the log of torch operations gains no entry, so no tensor is built,
    nothing is normalised and the model is not called. This holds for any
    sequence of calls, not only for the first. *)
Theorem predict_absent_503 (w : world) (requests : list TransactionFeatures) :
  app_state w !! "model" = Some PyNone →
  serve requests w =
    (map (λ _, Raise (HTTPException 503 "Model is not loaded.")) requests, w).
Proof.
  intros Hm. induction requests as [|f rest IH]; simpl.
  - reflexivity.
  - rewrite (predict_model_absent f w Hm), IH. reflexivity.
Qed.

End Absent.

Lemma predict_absent_503_witness :
  serve (H := step_runtime) [example_features; example_features] absent_world =
    ([Raise (HTTPException 503 "Model is not loaded.");
      Raise (HTTPException 503 "Model is not loaded.")], absent_world).
Proof.
  apply (predict_absent_503 (H := step_runtime) absent_world
           [example_features; example_features]).
  vm_compute. reflexivity.
Defined.

(** ** Frame and determinism *)

Section Frame.
Context `{TorchRuntime}.

(** C9. A call of [predict] leaves [app.state] unchanged, whether it returns
    a response, raises the 503 or raises anything else: every attribute,
    [model], [mean] and [std] among them, has the value it had before. *)
Theorem predict_preserves_state (features : TransactionFeatures) (w : world) :
  app_state (predict features w).2 = app_state w.
Proof. apply read_only_predict. Qed.

(** C8. The outcome of [predict], probability and decision alike, is a
    function of the input features and of the attributes [model], [mean] and
    [std]: two calls with the same features in worlds that agree on these
    three attributes have the same outcome, whatever else differs. *)
Theorem predict_deterministic (features : TransactionFeatures) (w1 w2 : world) :
  app_state w1 !! "model" = app_state w2 !! "model" →
  app_state w1 !! "mean" = app_state w2 !! "mean" →
  app_state w1 !! "std" = app_state w2 !! "std" →
  (predict features w1).1 = (predict features w2).1.
Proof.
  intros Hmodel Hmean Hstd. apply reads_only_predict.
  intros k Hk.
  repeat (apply elem_of_cons in Hk as [-> | Hk]; [assumption |]).
  inversion Hk.
Qed.

End Frame.

Lemma predict_deterministic_witness :
  (predict (H := step_runtime) example_features loaded_world).1 =
  (predict (H := step_runtime) example_features
     (World (<["version" := PyNone]> (app_state loaded_world))
            ["a line"] [OpItem])).1.
Proof.
  apply (predict_deterministic (H := step_runtime)); vm_compute; reflexivity.
Defined.

(** ** Startup and shutdown *)

Lemma lifespan_startup_loaded m w :
  lifespan_startup (LoadOk m) w =
    (Return (), World (started (PyModel m) w)
                      (stdout w ++ ["PyTorch model loaded successfully."])
                      (torch_log w)).
Proof. reflexivity. Qed.

Lemma lifespan_startup_caught e w :
  isinstance_Exception e = true →
  lifespan_startup (LoadRaises e) w =
    (Return (), World (started PyNone w) (stdout w ++ [load_error_line e]) (torch_log w)).
Proof. destruct e; intros He; try discriminate He; reflexivity. Qed.

Lemma lifespan_startup_uncaught e w :
  isinstance_Exception e = false →
  lifespan_startup (LoadRaises e) w = (Raise e, w).
Proof. destruct e; intros He; try discriminate He; reflexivity. Qed.

(** Whatever the load did, a startup that returned has set the three
    attributes. *)
Lemma lifespan_startup_returns o w w' :
  lifespan_startup o w = (Return (), w') →
  ∃ model, app_state w' = started model w.
Proof.
  destruct o as [m|e].
  - rewrite lifespan_startup_loaded. intros [= <-]. eauto.
  - destruct (isinstance_Exception e) eqn:He.
    + rewrite lifespan_startup_caught by exact He. intros [= <-]. eauto.
    + rewrite lifespan_startup_uncaught by exact He. discriminate.
Qed.

Lemma started_model model w : started model w !! "model" = Some model.
Proof. unfold started. by simplify_map_eq. Qed.

Lemma started_mean model w :
  started model w !! "mean" = Some (PyTensor placeholder_mean).
Proof. unfold started. by simplify_map_eq. Qed.

Lemma started_std model w :
  started model w !! "std" = Some (PyTensor placeholder_std).
Proof. unfold started. by simplify_map_eq. Qed.

Section Route.
Context `{TorchRuntime} `{FieldValidators}.

Lemma post_predict_preserves_state request_body w :
  app_state (post_predict request_body w).2 = app_state w.
Proof.
  unfold post_predict. destruct (validate_TransactionFeatures request_body) as [f|].
  - pose proof (proj1 (read_only_predict f w)) as Hp.
    destruct (predict f w) as [[r|e] w']; [exact Hp |].
    destruct e; exact Hp.
  - reflexivity.
Qed.

Lemma post_predict_model_absent request_body w :
  app_state w !! "model" = Some PyNone →
  post_predict request_body w = (Return {| status := 422; body := ValidationErrors |}, w) ∨
  post_predict request_body w =
    (Return {| status := 503; body := Detail "Model is not loaded." |}, w).
Proof.
  intros Hm. unfold post_predict.
  destruct (validate_TransactionFeatures request_body) as [f|]; [right | left; reflexivity].
  rewrite (predict_model_absent f w Hm). reflexivity.
Qed.

(** C5. When loading the artifact raises an exception, [FileNotFoundError]
    or any other instance of [Exception], startup catches it: it returns
    without raising, has printed the line for that error, and has set
    [app.state.model] to [None]. The service then answers every request:
    with 422 when the body does not validate and with 503 otherwise. *)
Theorem startup_survives_load_failure (e : exn) (w : world) :
  isinstance_Exception e = true →
  ∃ w', lifespan_startup (LoadRaises e) w = (Return (), w') ∧
        stdout w' = stdout w ++ [load_error_line e] ∧
        app_state w' !! "model" = Some PyNone ∧
        ∀ request_body, ∃ r,
          post_predict request_body w' = (Return r, w') ∧
          (status r = 422 ∨ status r = 503).
Proof.
  intros He. eexists. split; [apply lifespan_startup_caught, He |].
  split; [reflexivity |]. split; [apply started_model |].
  intros request_body.
  destruct (post_predict_model_absent request_body
              (World (started PyNone w) (stdout w ++ [load_error_line e]) (torch_log w))
              (started_model PyNone w)) as [-> | ->];
    eexists; (split; [reflexivity |]); [left | right]; reflexivity.
Qed.

Lemma server_step_placeholders w w' :
  server_step w w' → placeholders_set w → placeholders_set w'.
Proof.
  unfold placeholders_set. intros Hstep [Hmean Hstd]. destruct Hstep.
  - rewrite post_predict_preserves_state. auto.
  - simpl. by simplify_map_eq.
Qed.

Lemma reachable_placeholders w : reachable w → placeholders_set w.
Proof.
  induction 1 as [o w0 w Hstart | w w' _ IH Hstep].
  - apply lifespan_startup_returns in Hstart as [model Hstart].
    unfold placeholders_set. rewrite Hstart.
    split; [apply started_mean | apply started_std].
  - eapply server_step_placeholders; eassumption.
Qed.

(** C10. In every world the service can be in after a startup that
    returned, whether the model was loaded or not and however many requests
    and shutdowns followed, [mean] and [std] are set, [std] is
    [[1.0, 1.0, 1.0, 1.0]], and no component of [std] compares equal to
    zero; every division that a call of [predict] starts there has [std] as
    its divisor, so the normalisation never divides by zero. *)
Theorem reachable_std_nonzero (w : world) :
  reachable w →
  ∃ mean std,
    app_state w !! "mean" = Some (PyTensor mean) ∧
    app_state w !! "std" = Some (PyTensor std) ∧
    std = placeholder_std ∧
    Forall (λ x, is_zero32 x = false) std ∧
    ∀ features divisor,
      OpDiv divisor ∈ new_ops (predict features) w → divisor = PyTensor std.
Proof.
  intros Hw. destruct (reachable_placeholders w Hw) as [Hmean Hstd].
  do 2 eexists. split; [exact Hmean |]. split; [exact Hstd |].
  split; [reflexivity |]. split; [repeat constructor |].
  intros features divisor Hin.
  pose proof (new_ops_logs _ _ _ _ w (predict_divides_by_std features w) eq_refl) as Hops.
  rewrite Forall_forall in Hops. specialize (Hops _ Hin divisor eq_refl).
  rewrite Hstd in Hops. injection Hops as <-. reflexivity.
Qed.

End Route.

Lemma startup_survives_load_failure_witness :
  ∃ w', lifespan_startup (LoadRaises (RuntimeError "corrupt archive")) empty_world
          = (Return (), w') ∧
        stdout w' = stdout empty_world ++ [load_error_line (RuntimeError "corrupt archive")] ∧
        app_state w' !! "model" = Some PyNone ∧
        ∀ request_body, ∃ r,
          post_predict (H := step_runtime) (H0 := pydantic_validators) request_body w'
            = (Return r, w') ∧
          (status r = 422 ∨ status r = 503).
Proof.
  apply (startup_survives_load_failure (H := step_runtime) (H0 := pydantic_validators)
           (RuntimeError "corrupt archive") empty_world).
  reflexivity.
Defined.

Lemma reachable_std_nonzero_witness :
  ∃ mean std,
    app_state (post_predict (H := step_runtime) (H0 := pydantic_validators)
                 (JObj example_body) loaded_world).2 !! "mean" = Some (PyTensor mean) ∧
    app_state (post_predict (H := step_runtime) (H0 := pydantic_validators)
                 (JObj example_body) loaded_world).2 !! "std" = Some (PyTensor std) ∧
    std = placeholder_std ∧
    Forall (λ x, is_zero32 x = false) std ∧
    ∀ features divisor,
      OpDiv divisor ∈ new_ops (predict (H := step_runtime) features)
                        (post_predict (H := step_runtime) (H0 := pydantic_validators)
                           (JObj example_body) loaded_world).2 →
      divisor = PyTensor std.
Proof.
  apply (reachable_std_nonzero (H := step_runtime) (H0 := pydantic_validators)).
  apply (reach_step loaded_world); [| apply step_request].
  apply (reach_startup (LoadOk zero_model) empty_world).
  reflexivity.
Defined.

(** ** Rounding to a binary format

    [binary_round] and [binary_normalize] return a value of the format they
    round to, whatever mantissa and exponent they are given. *)

Section Rounding_facts.
#[local] Open Scope Z_scope.
Variables prec emax : Z.
Hypothesis prec_pos : 0 < prec.

Lemma digits2_pos_bounds (m : positive) :
  2 ^ (Z.pos (digits2_pos m) - 1) ≤ Z.pos m < 2 ^ Z.pos (digits2_pos m).
Proof.
  induction m as [m IH | m IH |]; simpl digits2_pos.
  - rewrite Pos2Z.inj_succ. replace (Z.succ (Z.pos (digits2_pos m)) - 1) with (Z.succ (Z.pos (digits2_pos m) - 1)) by lia.
    rewrite !Z.pow_succ_r by lia. lia.
  - rewrite Pos2Z.inj_succ. replace (Z.succ (Z.pos (digits2_pos m)) - 1) with (Z.succ (Z.pos (digits2_pos m) - 1)) by lia.
    rewrite !Z.pow_succ_r by lia. lia.
  - simpl. lia.
Qed.

Lemma digits2_pos_unique (m : positive) (d : Z) :
  2 ^ (d - 1) ≤ Z.pos m < 2 ^ d → Z.pos (digits2_pos m) = d.
Proof.
  intros [Hlo Hhi]. pose proof (digits2_pos_bounds m) as [Hlo' Hhi'].
  assert (0 < d).
  { destruct (Z.lt_ge_cases 0 d) as [|Hd]; [assumption |].
    apply Zle_lt_or_eq in Hd as [Hd | ->]; [rewrite (Z.pow_neg_r 2 d) in Hhi by exact Hd |]; simpl in Hhi; lia. }
  assert (d - 1 < Z.pos (digits2_pos m)) by (apply (Z.pow_lt_mono_r_iff 2); lia).
  assert (Z.pos (digits2_pos m) - 1 < d) by (apply (Z.pow_lt_mono_r_iff 2); lia).
  lia.
Qed.

Lemma shr_1_m (r : shr_record) : 0 ≤ shr_m r → shr_m (shr_1 r) = shr_m r / 2.
Proof.
  destruct r as [m r s]. cbn [shr_m]. intros Hm.
  destruct m as [|[p|p|]|p]; cbn [shr_1 shr_m]; try lia; try reflexivity.
  - apply (Z.div_unique_pos _ _ _ 1); lia.
  - apply (Z.div_unique_pos _ _ _ 0); lia.
Qed.

Lemma shr_iter_m (p : positive) (r : shr_record) :
  0 ≤ shr_m r → shr_m (SpecFloat.iter_pos shr_1 p r) = shr_m r / 2 ^ Z.pos p.
Proof.
  revert r. induction p as [p IH | p IH |]; intros r Hr; simpl SpecFloat.iter_pos.
  - assert (H1 : 0 ≤ shr_m (shr_1 r)) by (rewrite shr_1_m by exact Hr; apply Z.div_pos; lia).
    assert (H2 : 0 ≤ shr_m (SpecFloat.iter_pos shr_1 p (shr_1 r)))
      by (rewrite IH by exact H1; apply Z.div_pos; lia).
    rewrite IH by exact H2. rewrite IH by exact H1. rewrite shr_1_m by exact Hr.
    assert (Hp : 0 < 2 ^ Z.pos p) by (apply Z.pow_pos_nonneg; lia).
    rewrite !Z.div_div by lia.
    replace (2 ^ Z.pos p~1) with (2 * (2 ^ Z.pos p * 2 ^ Z.pos p)); [reflexivity |].
    rewrite <- Z.pow_add_r by lia. rewrite <- (Z.pow_succ_r 2) by lia. f_equal. lia.
  - assert (H2 : 0 ≤ shr_m (SpecFloat.iter_pos shr_1 p r))
      by (rewrite IH by exact Hr; apply Z.div_pos; lia).
    rewrite IH by exact H2. rewrite IH by exact Hr.
    assert (Hp : 0 < 2 ^ Z.pos p) by (apply Z.pow_pos_nonneg; lia).
    rewrite !Z.div_div by lia.
    replace (2 ^ Z.pos p~0) with (2 ^ Z.pos p * 2 ^ Z.pos p); [reflexivity |].
    rewrite <- Z.pow_add_r by lia. f_equal. lia.
  - rewrite shr_1_m by exact Hr. reflexivity.
Qed.

Lemma digits2_quotient (m q : positive) (n : Z) :
  0 ≤ n → Z.pos m / 2 ^ n = Z.pos q →
  Z.pos (digits2_pos q) = Z.pos (digits2_pos m) - n.
Proof.
  intros Hn Hq. pose proof (digits2_pos_bounds m) as [Hlo Hhi].
  set (d := Z.pos (digits2_pos m)) in *.
  assert (Hpow : 0 < 2 ^ n) by (apply Z.pow_pos_nonneg; lia).
  assert (Hmn : 2 ^ n ≤ Z.pos m).
  { destruct (Z.lt_ge_cases (Z.pos m) (2 ^ n)) as [Hlt|]; [| assumption].
    rewrite Z.div_small in Hq by lia. lia. }
  assert (Hnd : n < d) by (apply (Z.pow_lt_mono_r_iff 2); lia).
  apply digits2_pos_unique. rewrite <- Hq. split.
  - apply Z.div_le_lower_bound; [exact Hpow |].
    rewrite <- Z.pow_add_r by lia. replace (n + (d - n - 1)) with (d - 1) by lia. exact Hlo.
  - apply Z.div_lt_upper_bound; [exact Hpow |].
    rewrite <- Z.pow_add_r by lia. replace (n + (d - n)) with d by lia. exact Hhi.
Qed.

Lemma digits2_iter_xO (m d : positive) :
  digits2_pos (Pos.iter xO m d) = (digits2_pos m + d)%positive.
Proof.
  induction d as [|d IH] using Pos.peano_ind.
  - simpl. lia.
  - rewrite Pos.iter_succ. simpl. rewrite IH. lia.
Qed.

Lemma digits2_succ (m : positive) :
  Z.pos (digits2_pos (Pos.succ m)) = Z.pos (digits2_pos m) ∨
  (Z.pos (Pos.succ m) = 2 ^ Z.pos (digits2_pos m) ∧
   Z.pos (digits2_pos (Pos.succ m)) = Z.pos (digits2_pos m) + 1).
Proof.
  pose proof (digits2_pos_bounds m) as [Hlo Hhi].
  set (d := Z.pos (digits2_pos m)) in *.
  destruct (Z.eq_dec (Z.pos (Pos.succ m)) (2 ^ d)) as [Heq | Hne].
  - right. split; [exact Heq |]. apply digits2_pos_unique.
    replace (d + 1 - 1) with d by lia. rewrite Z.pow_add_r by lia. lia.
  - left. apply digits2_pos_unique. lia.
Qed.

Lemma fexp_ge_emin (x : Z) : x ≤ fexp prec emax x → fexp prec emax x = emin prec emax.
Proof. unfold fexp. lia. Qed.

Lemma shr_record_of_loc_m (m : Z) (l : location) : shr_m (shr_record_of_loc m l) = m.
Proof. destruct l as [|[]]; reflexivity. Qed.

Lemma round_nearest_even_cases (m : Z) (l : location) :
  round_nearest_even m l = m ∨ round_nearest_even m l = m + 1.
Proof. destruct l as [|[]]; simpl; auto. destruct (Z.even m); auto. Qed.

(** After [shr_fexp] the mantissa is zero or canonical for its exponent. *)
Lemma shr_fexp_canonical (m e : Z) (l : location) :
  0 ≤ m → e ≤ fexp prec emax (Zdigits2 m + e) →
  let '(mrs, e') := shr_fexp prec emax m e l in
  (shr_m mrs = 0 ∧ e' = emin prec emax) ∨
  (0 < shr_m mrs ∧ fexp prec emax (Zdigits2 (shr_m mrs) + e') = e').
Proof.
  intros Hm He. unfold shr_fexp, shr.
  destruct (fexp prec emax (Zdigits2 m + e) - e) as [|p|p] eqn:Hn; [| | lia].
  - rewrite shr_record_of_loc_m.
    destruct m as [|q|q]; [left | right | lia].
    + split; [reflexivity |]. simpl in Hn. unfold fexp in Hn. lia.
    + split; lia.
  - pose proof (shr_iter_m p (shr_record_of_loc m l)) as Hs.
    rewrite shr_record_of_loc_m in Hs. specialize (Hs Hm). rewrite Hs.
    assert (Hp : 0 < 2 ^ Z.pos p) by (apply Z.pow_pos_nonneg; lia).
    destruct (m / 2 ^ Z.pos p) as [|q|q] eqn:Hq.
    + left. split; [reflexivity |].
      replace (e + Z.pos p) with (fexp prec emax (Zdigits2 m + e)) by lia.
      apply fexp_ge_emin.
      destruct m as [|r|r]; [simpl in *; lia | | lia].
      pose proof (digits2_pos_bounds r) as [Hlo _]. simpl Zdigits2.
      assert (Z.pos r < 2 ^ Z.pos p).
      { destruct (Z.lt_ge_cases (Z.pos r) (2 ^ Z.pos p)) as [|Hge]; [assumption |].
        pose proof (Z.div_le_lower_bound (Z.pos r) (2 ^ Z.pos p) 1 Hp). lia. }
      assert (Z.pos (digits2_pos r) - 1 < Z.pos p)
        by (apply (Z.pow_lt_mono_r_iff 2); lia).
      simpl Zdigits2 in Hn. lia.
    + right. split; [lia |].
      destruct m as [|r|r]; [rewrite Z.div_0_l in Hq by lia; discriminate | | lia].
      simpl Zdigits2 in *.
      rewrite (digits2_quotient r q (Z.pos p)) by (lia || exact Hq).
      replace (Z.pos (digits2_pos r) - Z.pos p + (e + Z.pos p))
        with (Z.pos (digits2_pos r) + e) by lia.
      lia.
    + pose proof (Z.div_pos m (2 ^ Z.pos p)). lia.
Qed.

Lemma shr_fexp_zero (e : Z) (l : location) :
  shr_m (shr_fexp prec emax 0 e l).1 = 0.
Proof.
  unfold shr_fexp, shr. destruct (fexp prec emax (Zdigits2 0 + e) - e) as [|p|p]; simpl.
  - apply shr_record_of_loc_m.
  - rewrite shr_iter_m by (rewrite shr_record_of_loc_m; lia).
    rewrite shr_record_of_loc_m. apply Z.div_0_l.
    pose proof (Z.pow_pos_nonneg 2 (Z.pos p)). lia.
  - apply shr_record_of_loc_m.
Qed.

Lemma Zdigits2_succ_mono (m : Z) : 0 < m → Zdigits2 m ≤ Zdigits2 (m + 1).
Proof.
  destruct m as [|q|q]; try lia. intros _.
  replace (Z.pos q + 1) with (Z.pos (Pos.succ q)) by lia. simpl.
  destruct (digits2_succ q) as [-> | [_ ->]]; lia.
Qed.

(** Rounding returns a float of the format. *)
Lemma binary_round_aux_valid (s : bool) (m e : Z) (l : location) :
  0 ≤ m → e ≤ fexp prec emax (Zdigits2 m + e) →
  valid_binary prec emax (binary_round_aux prec emax s m e l) = true.
Proof.
  intros Hm He. unfold binary_round_aux.
  pose proof (shr_fexp_canonical m e l Hm He) as H1.
  destruct (shr_fexp prec emax m e l) as [mrs' e'].
  set (m2 := round_nearest_even (shr_m mrs') (loc_of_shr_record mrs')).
  assert (H2 : m2 = 0 ∨ (0 < m2 ∧ e' ≤ fexp prec emax (Zdigits2 m2 + e'))).
  { destruct (round_nearest_even_cases (shr_m mrs') (loc_of_shr_record mrs')) as [Hr | Hr];
      fold m2 in Hr; rewrite Hr; destruct H1 as [[H0 He'] | [Hpos Hc]].
    - left. exact H0.
    - right. split; lia.
    - right. rewrite H0, He'. simpl. unfold fexp, emin. lia.
    - right. split; [lia |]. pose proof (Zdigits2_succ_mono _ Hpos). unfold fexp in *. lia. }
  destruct H2 as [-> | [Hpos2 He2]].
  - pose proof (shr_fexp_zero e' loc_Exact) as Hz.
    destruct (shr_fexp prec emax 0 e' loc_Exact) as [mrs'' e'']. simpl in Hz.
    rewrite Hz. reflexivity.
  - pose proof (shr_fexp_canonical m2 e' loc_Exact (Z.lt_le_incl _ _ Hpos2) He2) as H3.
    destruct (shr_fexp prec emax m2 e' loc_Exact) as [mrs'' e''].
    destruct (shr_m mrs'') as [|q|q]; try reflexivity.
    destruct (Z.leb_spec e'' (emax - prec)) as [Hle | Hgt]; [| reflexivity].
    destruct H3 as [[H0 _] | [_ Hc]]; [discriminate H0 |].
    simpl. unfold bounded, canonical_mantissa. simpl Zdigits2 in Hc.
    apply andb_true_iff. split; [apply Z.eqb_eq, Hc | apply Z.leb_le, Hle].
Qed.

Lemma binary_round_valid (s : bool) (m : positive) (e : Z) :
  valid_binary prec emax (binary_round prec emax s m e) = true.
Proof.
  unfold binary_round, shl_align.
  destruct (fexp prec emax (Z.pos (digits2_pos m) + e) - e) as [|p|p] eqn:Hn.
  - apply binary_round_aux_valid; simpl; lia.
  - apply binary_round_aux_valid; simpl; lia.
  - apply binary_round_aux_valid; [lia |]. simpl Zdigits2.
    rewrite digits2_iter_xO, Pos2Z.inj_add.
    replace (Z.pos (digits2_pos m) + Z.pos p + fexp prec emax (Z.pos (digits2_pos m) + e))
      with (Z.pos (digits2_pos m) + e) by lia.
    lia.
Qed.

Lemma binary_normalize_valid (m e : Z) (szero : bool) :
  valid_binary prec emax (binary_normalize prec emax m e szero) = true.
Proof. destruct m; [reflexivity | apply binary_round_valid ..]. Qed.

End Rounding_facts.

(** Every conversion of the request path yields a value of its format. *)
Lemma f32_of_f64_valid (x : f64) : valid32 (f32_of_f64 x).
Proof. destruct x; [reflexivity .. |]. apply binary_round_valid. lia. Qed.

Lemma f64_of_f32_valid (x : f32) : valid64 (f64_of_f32 x).
Proof. destruct x; [reflexivity .. |]. apply binary_round_valid. lia. Qed.

Lemma f64_of_int_valid (n : Z) (x : f64) : f64_of_int n = Some x → valid64 x.
Proof.
  unfold f64_of_int. pose proof (binary_normalize_valid 53 1024 ltac:(lia) n 0 false) as Hv.
  destruct (binary_normalize 53 1024 n 0 false); intros [= <-]; exact Hv.
Qed.

Lemma scalar_to_f32_valid (v : py_scalar) (x : f32) : scalar_to_f32 v = Some x → valid32 x.
Proof.
  destruct v as [y|n]; simpl.
  - intros [= <-]. apply f32_of_f64_valid.
  - destruct (f64_of_int n); simpl; [| discriminate]. intros [= <-]. apply f32_of_f64_valid.
Qed.

Lemma iter_xO_pow2 (m k : positive) : Z.pos (Pos.iter xO m k) = (Z.pos m * 2 ^ Z.pos k)%Z.
Proof.
  induction k as [|k IH] using Pos.peano_ind.
  - simpl. lia.
  - rewrite Pos.iter_succ, Pos2Z.inj_xO, IH, Pos2Z.inj_succ, Z.pow_succ_r by lia. lia.
Qed.

(** Widening a float32 to a double only pads the mantissa with zero bits. *)
Lemma f64_of_f32_finite (s : bool) (m : positive) (e : Z) :
  bounded 24 128 m e = true →
  ∃ k : positive,
    f64_of_f32 (S754_finite s m e) = S754_finite s (Pos.iter xO m k) (e - Z.pos k).
Proof.
  unfold bounded, canonical_mantissa, fexp, emin.
  intros Hb. apply andb_true_iff in Hb as [Hc He].
  apply Z.eqb_eq in Hc. apply Z.leb_le in He.
  set (d := Z.pos (digits2_pos m)) in *.
  assert (Hd : (0 < d ≤ 24)%Z) by lia.
  destruct (53 - d)%Z as [|k|k] eqn:Ek; try lia.
  exists k.
  unfold f64_of_f32, binary_round, shl_align, fexp, emin. fold d.
  replace (Z.max (d + e - 53) (3 - 1024 - 53) - e)%Z with (Z.neg k) by lia.
  replace (Z.max (d + e - 53) (3 - 1024 - 53))%Z with (e - Z.pos k)%Z by lia.
  unfold binary_round_aux, shr_fexp, fexp, emin.
  cbn [shr_record_of_loc Zdigits2].
  rewrite digits2_iter_xO, Pos2Z.inj_add. fold d.
  replace (Z.max _ _ - (e - Z.pos k))%Z with 0%Z by lia.
  cbn [shr shr_m loc_of_shr_record round_nearest_even Zdigits2 shr_record_of_loc].
  rewrite digits2_iter_xO, Pos2Z.inj_add. fold d.
  replace (Z.max _ _ - (e - Z.pos k))%Z with 0%Z by lia.
  cbn [shr shr_m].
  destruct (Z.leb_spec (e - Z.pos k) (1024 - 53)); [reflexivity | lia].
Qed.

(** The Python float that [item] returns is the number held by the float32. *)
Lemma f64_of_f32_exact (x : f32) : valid32 x → same_number x (f64_of_f32 x).
Proof.
  destruct x as [| | |s m e]; try reflexivity.
  intros Hv. destruct (f64_of_f32_finite s m e Hv) as [k ->]. simpl.
  split; [reflexivity |]. split; [lia |].
  rewrite iter_xO_pow2. f_equal. f_equal. lia.
Qed.

(** ** Arithmetic with the placeholders *)

Section Float_facts.

Lemma div_eucl_pair (a b : Z) : Z.div_eucl a b = (a / b, a mod b).
Proof. unfold Z.div, Z.modulo. destruct (Z.div_eucl a b); reflexivity. Qed.

(** [x - 0.0] is [x], signed zeros, infinities and NaN included. *)
Lemma sub32_zero (x : f32) : sub32 x zero32 = x.
Proof. destruct x as [[]|[]| |s m e]; reflexivity. Qed.

(** Dividing a finite float32 by [1.0]: the quotient of the mantissas is
    exact, and rounding it gives back the mantissa and exponent of [x]. *)
Lemma div32_one_finite (s : bool) (m : positive) (e : Z) :
  bounded 24 128 m e = true →
  div32 (S754_finite s m e) one32 = S754_finite s m e.
Proof.
  unfold bounded, canonical_mantissa, fexp, emin.
  intros Hb. apply andb_true_iff in Hb as [Hc He].
  apply Z.eqb_eq in Hc. apply Z.leb_le in He.
  unfold div32, SFdiv, one32, SFdiv_core_binary.
  change (Zdigits2 (Z.pos 8388608)) with 24.
  change (Zdigits2 (Z.pos m)) with (Z.pos (digits2_pos m)).
  rewrite xorb_false_r. unfold fexp, emin.
  destruct (Z.eq_dec e (-149)) as [-> | Hne].
  - (* subnormal exponent: the quotient is [m] itself *)
    replace (Z.min _ _) with (-149) by lia.
    change (-149 - -23 - -149) with 23.
    rewrite div_eucl_pair, Z.shiftl_mul_pow2 by lia.
    change (2 ^ 23) with 8388608.
    rewrite Z.div_mul, Z.mod_mul by lia.
    change (new_location 8388608 0) with loc_Exact.
    unfold binary_round_aux, shr_fexp, fexp, emin. cbn [shr_record_of_loc Zdigits2].
    replace (Z.max _ _ - -149) with 0 by lia.
    cbn [shr shr_m loc_of_shr_record round_nearest_even Zdigits2 shr_record_of_loc].
    replace (Z.max _ _ - -149) with 0 by lia.
    reflexivity.
  - (* normal: the quotient is [2 * m], shifted back by one bit *)
    assert (Hd : Z.pos (digits2_pos m) = 24) by lia.
    rewrite Hd.
    replace (Z.min _ _) with (e - 1) by lia.
    replace (e - -23 - (e - 1)) with 24 by lia.
    rewrite div_eucl_pair, Z.shiftl_mul_pow2 by lia.
    change (2 ^ 24) with (2 * 8388608).
    rewrite Z.mul_assoc, Z.div_mul, Z.mod_mul by lia.
    change (new_location 8388608 0) with loc_Exact.
    rewrite (Z.mul_comm _ 2). change (2 * Z.pos m) with (Z.pos m~0).
    unfold binary_round_aux, shr_fexp, fexp, emin. cbn [shr_record_of_loc Zdigits2].
    change (digits2_pos m~0) with (Pos.succ (digits2_pos m)).
    rewrite Pos2Z.inj_succ, Hd.
    replace (Z.max _ _ - (e - 1)) with 1 by lia.
    cbn [shr SpecFloat.iter_pos shr_1 shr_m loc_of_shr_record round_nearest_even Zdigits2
         shr_record_of_loc orb].
    rewrite Hd.
    replace (Z.max _ _ - (e - 1 + 1)) with 0 by lia.
    cbn [shr shr_m].
    replace (e - 1 + 1) with e by lia.
    destruct (Z.leb_spec e (128 - 24)); [reflexivity | lia].
Qed.

Lemma div32_one (x : f32) : valid32 x → div32 x one32 = x.
Proof.
  destruct x as [[]|[]| |s m e]; try reflexivity.
  intros Hv. apply div32_one_finite. exact Hv.
Qed.

Lemma normalize_scalar_placeholder (x : f32) :
  valid32 x → div32 (sub32 x zero32) one32 = x.
Proof. intros Hv. rewrite sub32_zero. apply div32_one, Hv. Qed.

End Float_facts.

Section Normalisation.

Lemma mapM_cons_Some {A B} (f : A → option B) x l y k :
  f x = Some y → mapM f l = Some k → mapM f (x :: l) = Some (y :: k).
Proof. intros Hx Hl. simpl. rewrite Hx. simpl. rewrite Hl. reflexivity. Qed.

Lemma broadcast_row_sub_placeholder (row : tensor1) :
  length row = 4%nat → broadcast_row sub32 row placeholder_mean = Some row.
Proof.
  intros Hlen. destruct row as [|a [|b [|c [|d [|? ?]]]]]; try discriminate Hlen.
  unfold broadcast_row. simpl. rewrite !sub32_zero. reflexivity.
Qed.

Lemma broadcast_row_div_placeholder (row : tensor1) :
  length row = 4%nat → Forall valid32 row →
  broadcast_row div32 row placeholder_std = Some row.
Proof.
  intros Hlen Hv. destruct row as [|a [|b [|c [|d [|? ?]]]]]; try discriminate Hlen.
  repeat match goal with Hf : Forall _ (_ :: _) |- _ => inversion_clear Hf end.
  unfold broadcast_row. simpl. rewrite !div32_one by assumption. reflexivity.
Qed.

Lemma broadcast2_sub_placeholder (t : tensor2) :
  tensor_of_width 4 t → broadcast2 sub32 t placeholder_mean = Some t.
Proof.
  unfold broadcast2. induction 1 as [|row t [Hlen _] _ IH]; [reflexivity |].
  apply mapM_cons_Some; [apply broadcast_row_sub_placeholder, Hlen | exact IH].
Qed.

Lemma broadcast2_div_placeholder (t : tensor2) :
  tensor_of_width 4 t → broadcast2 div32 t placeholder_std = Some t.
Proof.
  unfold broadcast2. induction 1 as [|row t [Hlen Hv] _ IH]; [reflexivity |].
  apply mapM_cons_Some; [apply broadcast_row_div_placeholder; assumption | exact IH].
Qed.

(** C7. After startup, [mean] is [[0, 0, 0, 0]] and [std] is [[1, 1, 1, 1]],
    and with these parameters the normalisation [(tensor - mean) / std] is
    the identity: it returns every float32 tensor of four columns unchanged,
    element by element. *)
Theorem placeholder_normalization_identity
    (o : load_outcome) (w0 w : world) (t : tensor2) :
  lifespan_startup o w0 = (Return (), w) →
  tensor_of_width 4 t →
  ∃ mean std,
    app_state w !! "mean" = Some (PyTensor mean) ∧
    app_state w !! "std" = Some (PyTensor std) ∧
    mean = [zero32; zero32; zero32; zero32] ∧
    std = [one32; one32; one32; one32] ∧
    normalize t mean std = Some t.
Proof.
  intros Hstart Ht. apply lifespan_startup_returns in Hstart as [model Hstart].
  exists placeholder_mean, placeholder_std. rewrite Hstart.
  split; [apply started_mean |]. split; [apply started_std |].
  do 2 (split; [reflexivity |]).
  unfold normalize. rewrite (broadcast2_sub_placeholder t Ht). simpl.
  apply broadcast2_div_placeholder, Ht.
Qed.

End Normalisation.

Lemma placeholder_normalization_identity_witness :
  ∃ mean std,
    app_state loaded_world !! "mean" = Some (PyTensor mean) ∧
    app_state loaded_world !! "std" = Some (PyTensor std) ∧
    mean = [zero32; zero32; zero32; zero32] ∧
    std = [one32; one32; one32; one32] ∧
    normalize example_tensor mean std = Some example_tensor.
Proof.
  apply (placeholder_normalization_identity (LoadOk zero_model) empty_world).
  - reflexivity.
  - repeat constructor.
Defined.

(** ** The response of a successful call *)

Section Response.
Context `{TorchRuntime}.

Lemma bind_returns_inv {A B} (m : M A) (k : A → M B) w b w' :
  (m ≫= k) w = (Return b, w') →
  ∃ a w1, m w = (Return a, w1) ∧ k a w1 = (Return b, w').
Proof.
  unfold mbind, M_bind. destruct (m w) as [[a|e] w1]; [eauto | discriminate].
Qed.

(** A response of [predict] is built from one probability. *)
Lemma predict_returns_inv features w r w' :
  predict features w = (Return r, w') →
  ∃ p, r = {| probability := p; is_fraudulent := gt64 p half64 |}.
Proof.
  unfold predict. intros Hp.
  apply bind_returns_inv in Hp as (model & w1 & _ & Hp).
  destruct model; [discriminate Hp | |];
    repeat (apply bind_returns_inv in Hp as (? & ? & _ & Hp));
    injection Hp as <- _; eauto.
Qed.

(** C3. In every response that [predict] returns, [is_fraudulent] is the
    value of the comparison [probability > 0.5], with the constant 0.5 and
    nothing taken from the request; a probability of exactly 0.5 gives
    [is_fraudulent = false]. *)
Theorem is_fraudulent_threshold
    (features : TransactionFeatures) (w w' : world) (r : PredictionResponse) :
  predict features w = (Return r, w') →
  is_fraudulent r = gt64 (probability r) half64 ∧
  (probability r = half64 → is_fraudulent r = false).
Proof.
  intros Hp. apply predict_returns_inv in Hp as [p ->]. simpl.
  split; [reflexivity | intros ->; reflexivity].
Qed.

(** The broadcast of the source on a single row of the width of [v] is the
    elementwise operation of the specification. *)
Lemma broadcast2_single_row op (row v : tensor1) :
  length row = length v → broadcast2 op [row] v = Some [zip_with op row v].
Proof.
  intros Hlen. unfold broadcast2, broadcast_row. simpl.
  rewrite decide_True by exact Hlen. reflexivity.
Qed.

Lemma normalize_refines_spec (v mean std : tensor1) :
  length v = 4%nat → length mean = 4%nat → length std = 4%nat →
  normalize [v] mean std = Some [spec_normalize v mean std].
Proof.
  intros Hv Hm Hs.
  destruct v as [|a [|b [|c [|d [|? ?]]]]]; try discriminate Hv.
  destruct mean as [|ma [|mb [|mc [|md [|? ?]]]]]; try discriminate Hm.
  destruct std as [|sa [|sb [|sc [|sd [|? ?]]]]]; try discriminate Hs.
  reflexivity.
Qed.

Lemma feature_vector_length f v : feature_vector f = Some v → length v = 4%nat.
Proof.
  unfold feature_vector. simpl.
  destruct (f64_of_int (time_of_day f)), (f64_of_int (mismatch f)),
    (f64_of_int (frequency f)); simpl; try discriminate.
  intros [= <-]. reflexivity.
Qed.

Lemma bind_returns {A B} (m : M A) (k : A → M B) w a w1 :
  m w = (Return a, w1) → (m ≫= k) w = k a w1.
Proof. intros Hm. unfold mbind, M_bind. rewrite Hm. reflexivity. Qed.

Lemma getattr_returns name v w :
  app_state w !! name = Some v → getattr name w = (Return v, w).
Proof. intros Hv. unfold getattr. rewrite Hv. reflexivity. Qed.

Lemma torch_tensor_returns rows t w :
  mapM (mapM scalar_to_f32) rows = Some t →
  torch_tensor rows w = (Return t, logged OpTensor w).
Proof. intros Ht. unfold torch_tensor, mbind, M_bind, tick. rewrite Ht. reflexivity. Qed.

Lemma tensor_binop_returns tag op t u r w :
  broadcast2 op t u = Some r →
  tensor_binop tag op t (PyTensor u) w = (Return r, logged (tag (PyTensor u)) w).
Proof. intros Hr. unfold tensor_binop, mbind, M_bind, tick. rewrite Hr. reflexivity. Qed.

Lemma item_returns x w : item [x] w = (Return (f64_of_f32 x), logged OpItem w).
Proof. reflexivity. Qed.

(** The successful run of [predict], step by step. *)
Lemma predict_returns features w model mean std t c n x :
  app_state w !! "model" = Some (PyModel model) →
  app_state w !! "mean" = Some (PyTensor mean) →
  app_state w !! "std" = Some (PyTensor std) →
  mapM (mapM scalar_to_f32)
    [[PyFloat (amount features); PyInt (time_of_day features);
      PyInt (mismatch features); PyInt (frequency features)]] = Some t →
  broadcast2 sub32 t mean = Some c →
  broadcast2 div32 c std = Some n →
  model n = [x] →
  predict features w =
    (Return {| probability := f64_of_f32 (sigmoid x);
               is_fraudulent := gt64 (f64_of_f32 (sigmoid x)) half64 |},
     World (app_state w) (stdout w)
       (torch_log w ++ [OpTensor; OpSub (PyTensor mean); OpDiv (PyTensor std);
                       OpForward n; OpSigmoid; OpItem])).
Proof.
  intros Hmodel Hmean Hstd Ht Hc Hn Hx. unfold predict.
  rewrite (bind_returns _ _ _ _ _ (getattr_returns _ _ _ Hmodel)).
  rewrite (bind_returns _ _ _ _ _ (torch_tensor_returns _ _ _ Ht)).
  rewrite (bind_returns _ _ _ _ _ (getattr_returns "mean" _ (logged _ _) Hmean)).
  unfold tensor_sub, tensor_div.
  rewrite (bind_returns _ _ _ _ _ (tensor_binop_returns _ _ _ _ _ _ Hc)).
  rewrite (bind_returns _ _ _ _ _ (getattr_returns "std" _ (logged _ (logged _ _)) Hstd)).
  rewrite (bind_returns _ _ _ _ _ (tensor_binop_returns _ _ _ _ _ _ Hn)).
  unfold call, torch_sigmoid, mbind, M_bind, tick. rewrite Hx. simpl.
  unfold logged. simpl. rewrite <- !app_assoc. reflexivity.
Qed.

Lemma feature_vector_valid f v : feature_vector f = Some v → Forall valid32 v.
Proof.
  unfold feature_vector. intros Hv. apply mapM_Some in Hv.
  induction Hv as [|s x l k Hx _ IH]; constructor; [| exact IH].
  exact (scalar_to_f32_valid s x Hx).
Qed.

(** After a startup that loaded [model], the normalisation changes nothing:
    [predict] calls the model on the raw feature row and returns the sigmoid
    of its logit. *)
Lemma predict_scores_raw_features features model w0 w v x :
  lifespan_startup (LoadOk model) w0 = (Return (), w) →
  feature_vector features = Some v →
  model [v] = [x] →
  (predict features w).1 =
    Return {| probability := f64_of_f32 (sigmoid x);
              is_fraudulent := gt64 (f64_of_f32 (sigmoid x)) half64 |} ∧
  new_ops (predict features) w =
    [OpTensor; OpSub (PyTensor placeholder_mean); OpDiv (PyTensor placeholder_std);
     OpForward [v]; OpSigmoid; OpItem].
Proof.
  rewrite lifespan_startup_loaded. intros [= <-] Hv Hx.
  assert (Ht : tensor_of_width 4 [v]).
  { repeat constructor; [exact (feature_vector_length _ _ Hv) | exact (feature_vector_valid _ _ Hv)]. }
  unfold new_ops.
  erewrite predict_returns;
    [ | apply started_model | apply started_mean | apply started_std
      | apply mapM_cons_Some; [exact Hv | reflexivity]
      | apply broadcast2_sub_placeholder, Ht
      | apply broadcast2_div_placeholder, Ht
      | exact Hx ].
  split; [reflexivity |]. simpl. apply drop_app_length.
Qed.

(** C2. With a model loaded and parameters [mean] and [std] of four
    elements, [predict] on features whose integers fit a double returns the
    probability [sigmoid(model(x))], where [x] is the batch whose one row is
    the vector [[amount, time_of_day, mismatch, frequency]], in this order,
    normalised elementwise as [(value - mean[i]) / std[i]], provided the
    model answers with a single logit. *)
Theorem predict_probability
    (features : TransactionFeatures) (w : world) (model : ScoringModel)
    (mean std v : tensor1) (logit : f32) :
  app_state w !! "model" = Some (PyModel model) →
  app_state w !! "mean" = Some (PyTensor mean) →
  app_state w !! "std" = Some (PyTensor std) →
  length mean = 4%nat → length std = 4%nat →
  feature_vector features = Some v →
  model [spec_normalize v mean std] = [logit] →
  ∃ r w', predict features w = (Return r, w') ∧
          probability r = f64_of_f32 (sigmoid logit).
Proof.
  intros Hmodel Hmean Hstd Hlm Hls Hv Hlogit.
  pose proof (normalize_refines_spec v mean std
                (feature_vector_length _ _ Hv) Hlm Hls) as Hn.
  unfold normalize in Hn.
  destruct (broadcast2 sub32 [v] mean) as [c|] eqn:Hsub; [| discriminate Hn].
  simpl in Hn.
  assert (Ht : mapM (mapM scalar_to_f32)
                 [[PyFloat (amount features); PyInt (time_of_day features);
                   PyInt (mismatch features); PyInt (frequency features)]] = Some [v]).
  { apply mapM_cons_Some; [exact Hv | reflexivity]. }
  do 2 eexists. split.
  - exact (predict_returns features w model mean std _ _ _ _
             Hmodel Hmean Hstd Ht Hsub Hn Hlogit).
  - reflexivity.
Qed.

End Response.

Lemma is_fraudulent_threshold_witness :
  is_fraudulent {| probability := half64; is_fraudulent := false |} =
    gt64 (probability {| probability := half64; is_fraudulent := false |}) half64 ∧
  (probability {| probability := half64; is_fraudulent := false |} = half64 →
   is_fraudulent {| probability := half64; is_fraudulent := false |} = false).
Proof.
  apply (is_fraudulent_threshold (H := step_runtime) example_features loaded_world
           (predict (H := step_runtime) example_features loaded_world).2).
  vm_compute. reflexivity.
Defined.

Lemma predict_probability_witness :
  ∃ r w', predict (H := step_runtime) example_features loaded_world = (Return r, w') ∧
          probability r = f64_of_f32 (sigmoid (TorchRuntime := step_runtime) zero32).
Proof.
  apply (predict_probability (H := step_runtime) example_features loaded_world
           zero_model placeholder_mean placeholder_std
           [S754_finite false 16384000 (-15); S754_finite false 14680064 (-20);
            S754_finite false 8388608 (-23); S754_finite false 12582912 (-22)]);
    vm_compute; reflexivity.
Defined.

(** The example of the specification: with the placeholders, [predict] on
    [{amount: 500.0, time_of_day: 14, mismatch: 1, frequency: 3}] calls the
    model on [[500.0, 14, 1, 3]] and returns the sigmoid of its logit. *)
Example predict_example `{TorchRuntime} (model : ScoringModel) (logit : f32) (w0 w : world) :
  lifespan_startup (LoadOk model) w0 = (Return (), w) →
  model example_tensor = [logit] →
  (predict example_features w).1 =
    Return {| probability := f64_of_f32 (sigmoid logit);
              is_fraudulent := gt64 (f64_of_f32 (sigmoid logit)) half64 |}.
Proof.
  rewrite lifespan_startup_loaded. intros [= <-] Hlogit.
  erewrite predict_returns; [reflexivity | apply started_model | apply started_mean
    | apply started_std | reflexivity | reflexivity | reflexivity | exact Hlogit].
Qed.

(** ** Validation of the request body *)

Section Validation.
Context `{TorchRuntime} `{FieldValidators}.

Lemma validate_ignores_extra fields k v :
  k ∉ field_names →
  validate_TransactionFeatures (JObj (<[k := v]> fields)) =
  validate_TransactionFeatures (JObj fields).
Proof.
  unfold field_names. intros Hk. unfold validate_TransactionFeatures.
  rewrite !lookup_insert_ne by set_solver. reflexivity.
Qed.

End Validation.

Section Pydantic.
Context `{TorchRuntime}.

Lemma validate_float_None j : Lax.validate_float j = None ↔ bad_float j.
Proof. destruct j; simpl; split; try tauto; try discriminate; destruct b; discriminate. Qed.

Lemma validate_int_None j : Lax.validate_int j = None ↔ bad_int j.
Proof. destruct j; simpl; split; try tauto; try discriminate; destruct b; discriminate. Qed.

Lemma unusable_rejected {A} (bad : JSON → Prop) (validate : JSON → option A) fields name :
  (∀ j, validate j = None ↔ bad j) →
  unusable bad fields name ↔ fields !! name ≫= validate = None.
Proof.
  intros Hbad. unfold unusable. destruct (fields !! name) as [j|]; simpl.
  - symmetry. apply Hbad.
  - tauto.
Qed.

(** The schema rejects exactly the bodies of [rejected_body]. *)
Lemma rejected_body_iff request_body :
  rejected_body request_body ↔
  validate_TransactionFeatures (H := pydantic_validators) request_body = None.
Proof.
  destruct request_body as [| | | | | |fields]; simpl; try tauto.
  rewrite (unusable_rejected bad_float Lax.validate_float fields "amount" validate_float_None).
  rewrite !(unusable_rejected bad_int Lax.validate_int fields _ validate_int_None).
  destruct (fields !! "amount" ≫= Lax.validate_float); simpl; [| tauto].
  destruct (fields !! "time_of_day" ≫= Lax.validate_int); simpl; [| tauto].
  destruct (fields !! "mismatch" ≫= Lax.validate_int); simpl; [| tauto].
  destruct (fields !! "frequency" ≫= Lax.validate_int); simpl; [| tauto].
  split; [intros [Hn | [Hn | [Hn | Hn]]]; discriminate Hn | discriminate].
Qed.

(** C6 as the code has it. The body is validated before [predict] is
    called, and all four fields are required. A body is rejected exactly
    when it is not an object, or misses one of [amount], [time_of_day],
    [mismatch], [frequency], or gives one of them a value that does not
    convert to the type of the field: null, an array, an object, a string
    that is not a number of that type, a float that is not an integer (or
    is beyond the 64-bit range) for an integer field, an integer too large
    for a double for [amount]. A
    rejected body is answered with the client error 422 and the world is
    left as it was, so no scoring is attempted. A key that is not one of the
    four fields is not read: adding it to a body changes neither the
    validated features nor the answer. *)
Theorem schema_validation (request_body : JSON) (w : world) :
  (rejected_body request_body ↔
   validate_TransactionFeatures (H := pydantic_validators) request_body = None) ∧
  (rejected_body request_body →
   post_predict (H0 := pydantic_validators) request_body w =
     (Return {| status := 422; body := ValidationErrors |}, w)) ∧
  (∀ fields k v, request_body = JObj fields → k ∉ field_names →
     validate_TransactionFeatures (H := pydantic_validators) (JObj (<[k := v]> fields)) =
       validate_TransactionFeatures (H := pydantic_validators) request_body ∧
     post_predict (H0 := pydantic_validators) (JObj (<[k := v]> fields)) w =
       post_predict (H0 := pydantic_validators) request_body w).
Proof.
  split; [apply rejected_body_iff |]. split.
  - intros Hrej. apply rejected_body_iff in Hrej.
    unfold post_predict. rewrite Hrej. reflexivity.
  - intros fields k v -> Hk. unfold post_predict.
    rewrite (validate_ignores_extra (H0 := pydantic_validators) fields k v Hk).
    split; reflexivity.
Qed.

End Pydantic.

Lemma schema_validation_witness :
  post_predict (H := step_runtime) (H0 := pydantic_validators)
    (JObj (<["amount" := JStr "five hundred"]> example_body)) loaded_world =
    (Return {| status := 422; body := ValidationErrors |}, loaded_world).
Proof.
  apply (schema_validation (H := step_runtime)).
  left. vm_compute. reflexivity.
Defined.

(** C6 as stated fails in two ways. A body that gives [amount] the string
    "500", [time_of_day] the float 14.0, [mismatch] the boolean [true] and
    [frequency] the string "3", and that carries a key that is not a field,
    is not rejected: the values are converted, the key is ignored, the body
    validates to the features of the example and is scored and answered
    with 200. *)
Lemma wrong_types_and_extra_field_accepted :
  coerced_body !! "amount" = Some (JStr "500") ∧
  coerced_body !! "mismatch" = Some (JBool true) ∧
  coerced_body !! "card_number" = Some (JStr "4111") ∧
  validate_TransactionFeatures (H := pydantic_validators) (JObj coerced_body) =
    Some example_features ∧
  (post_predict (H := step_runtime) (H0 := pydantic_validators)
     (JObj coerced_body) loaded_world).1 =
    Return {| status := 200;
              body := Prediction {| probability := half64; is_fraudulent := false |} |}.
Proof. vm_compute. repeat split; reflexivity. Qed.

(** * Further properties of [lifespan], [predict] and the route *)

(** ** What a returning step tells *)

Section Inversion.
Context `{TorchRuntime}.

Lemma getattr_inv name w v w' :
  getattr name w = (Return v, w') → app_state w !! name = Some v ∧ w' = w.
Proof.
  unfold getattr. destruct (app_state w !! name); [| discriminate].
  intros [= <- <-]. split; reflexivity.
Qed.

Lemma torch_tensor_inv rows w t w' :
  torch_tensor rows w = (Return t, w') →
  mapM (mapM scalar_to_f32) rows = Some t ∧ w' = logged OpTensor w.
Proof.
  unfold torch_tensor, mbind, M_bind, tick.
  destruct (mapM (mapM scalar_to_f32) rows); [| discriminate].
  intros [= <- <-]. split; reflexivity.
Qed.

Lemma tensor_binop_inv tag op t v w r w' :
  tensor_binop tag op t v w = (Return r, w') →
  ∃ u, v = PyTensor u ∧ broadcast2 op t u = Some r ∧ w' = logged (tag v) w.
Proof.
  unfold tensor_binop, mbind, M_bind, tick.
  destruct v as [| |u]; try discriminate.
  destruct (broadcast2 op t u) eqn:Hb; [| discriminate].
  intros [= <- <-]. eauto.
Qed.

Lemma call_inv f x w out w' :
  call f x w = (Return out, w') →
  ∃ m, f = PyModel m ∧ out = m x ∧ w' = logged (OpForward x) w.
Proof. destruct f; try discriminate. intros [= <- <-]. eauto. Qed.

Lemma torch_sigmoid_inv t w out w' :
  torch_sigmoid t w = (Return out, w') → out = map sigmoid t ∧ w' = logged OpSigmoid w.
Proof. intros [= <- <-]. split; reflexivity. Qed.

Lemma item_inv t w p w' :
  item t w = (Return p, w') → ∃ x, t = [x] ∧ p = f64_of_f32 x ∧ w' = logged OpItem w.
Proof.
  unfold item, mbind, M_bind, tick. destruct t as [|x [|y t]]; try discriminate.
  intros [= <- <-]. eauto.
Qed.

Lemma mapM_row_inv (row : list py_scalar) (t : tensor2) :
  mapM (mapM scalar_to_f32) [row] = Some t →
  ∃ v, mapM scalar_to_f32 row = Some v ∧ t = [v].
Proof.
  change (mapM (mapM scalar_to_f32) [row])
    with (y ← mapM scalar_to_f32 row; k ← mapM (mapM scalar_to_f32) []; mret (y :: k)).
  destruct (mapM scalar_to_f32 row) as [v|]; [| discriminate].
  intros [= <-]. eauto.
Qed.

Lemma map_singleton_inv {A B} (f : A → B) (l : list A) (y : B) :
  map f l = [y] → ∃ x, l = [x] ∧ y = f x.
Proof. destruct l as [|x [|? ?]]; try discriminate. intros [= <-]. eauto. Qed.

End Inversion.

(** ** The exceptions of the request path *)

Section Raises.
Context {A B : Type} (E : exn → Prop).

Lemma raises_only_ret (a : A) : raises_only E (mret a).
Proof. intros w e He. discriminate He. Qed.

Lemma raises_only_raise (e : exn) : E e → raises_only E (@raise A e).
Proof. intros He w e' [= <-]. exact He. Qed.

Lemma raises_only_bind (m : M A) (k : A → M B) :
  raises_only E m → (∀ a, raises_only E (k a)) → raises_only E (m ≫= k).
Proof.
  intros Hm Hk w e. specialize (Hm w). unfold mbind, M_bind.
  destruct (m w) as [[a|e'] w1]; simpl in *.
  - apply Hk.
  - intros [= <-]. apply Hm. reflexivity.
Qed.

End Raises.

Lemma raises_only_tick E op : raises_only E (tick op).
Proof. intros w e He. discriminate He. Qed.

Lemma getattr_not_http name : raises_only not_http (getattr name).
Proof.
  intros w e. unfold getattr. destruct (app_state w !! name); [discriminate |].
  intros [= <-]. exact I.
Qed.

Lemma torch_tensor_not_http rows : raises_only not_http (torch_tensor rows).
Proof.
  unfold torch_tensor. apply raises_only_bind; [apply raises_only_tick |]. intros _.
  destruct (mapM _ rows); [apply raises_only_ret | apply raises_only_raise; exact I].
Qed.

Lemma tensor_binop_not_http tag op t v : raises_only not_http (tensor_binop tag op t v).
Proof.
  unfold tensor_binop. apply raises_only_bind; [apply raises_only_tick |]. intros _.
  destruct v as [| |u]; try (apply raises_only_raise; exact I).
  destruct (broadcast2 op t u); [apply raises_only_ret | apply raises_only_raise; exact I].
Qed.

Lemma call_not_http f x : raises_only not_http (call f x).
Proof.
  destruct f; simpl; try (apply raises_only_raise; exact I).
  apply raises_only_bind; [apply raises_only_tick |]. intros _. apply raises_only_ret.
Qed.

Lemma item_not_http t : raises_only not_http (item t).
Proof.
  unfold item. apply raises_only_bind; [apply raises_only_tick |]. intros _.
  destruct t as [|x [|y t]];
    [apply raises_only_raise; exact I | apply raises_only_ret | apply raises_only_raise; exact I].
Qed.

Section Outcomes.
Context `{TorchRuntime}.

Lemma torch_sigmoid_not_http t : raises_only not_http (torch_sigmoid t).
Proof.
  unfold torch_sigmoid. apply raises_only_bind; [apply raises_only_tick |].
  intros _. apply raises_only_ret.
Qed.

(** The part of [predict] after the check of the model raises no
    [HTTPException]. *)
Lemma scoring_not_http features model :
  raises_only not_http
    (tensor ← torch_tensor [[PyFloat (amount features); PyInt (time_of_day features);
                             PyInt (mismatch features); PyInt (frequency features)]];
     mean ← getattr "mean";
     centred ← tensor_sub tensor mean;
     std ← getattr "std";
     n_tensor ← tensor_div centred std;
     logits ← call model n_tensor;
     probs ← torch_sigmoid logits;
     probability ← item probs;
     mret {| probability := probability; is_fraudulent := gt64 probability half64 |}).
Proof.
  unfold tensor_sub, tensor_div.
  repeat first
    [ apply raises_only_ret
    | apply torch_tensor_not_http | apply getattr_not_http | apply tensor_binop_not_http
    | apply call_not_http | apply torch_sigmoid_not_http | apply item_not_http
    | apply raises_only_bind; [| intros ?] ].
Qed.

(** An [HTTPException] out of [predict] is the 503 of the absent model. *)
Lemma predict_http_inv features w code detail w' :
  predict features w = (Raise (HTTPException code detail), w') →
  code = 503 ∧ detail = "Model is not loaded." ∧
  app_state w !! "model" = Some PyNone ∧ w' = w.
Proof.
  unfold predict. unfold mbind at 1, M_bind at 1.
  destruct (getattr "model" w) as [[model|e] w1] eqn:Hg.
  - apply getattr_inv in Hg as [Hm ->].
    destruct model as [|m|t].
    + intros [= <- <- <-]. auto.
    + intros Hp. pose proof (scoring_not_http features (PyModel m) w _ (f_equal fst Hp)) as [].
    + intros Hp. pose proof (scoring_not_http features (PyTensor t) w _ (f_equal fst Hp)) as [].
  - intros [= -> <-]. pose proof (getattr_not_http "model" w _ (f_equal fst Hg)) as [].
Qed.

(** X1. [predict] raises an [HTTPException] exactly when [app.state.model]
    is [None]; it is then the 503 with the detail "Model is not loaded.", and
    the world is left as it was. Every other failure of [predict] is an
    exception of another class. *)
Theorem predict_http_iff_model_absent (features : TransactionFeatures) (w : world) :
  (∃ code detail, (predict features w).1 = Raise (HTTPException code detail)) ↔
  app_state w !! "model" = Some PyNone ∧
  predict features w = (Raise (HTTPException 503 "Model is not loaded."), w).
Proof.
  split.
  - intros (code & detail & Hp).
    destruct (predict features w) as [o w'] eqn:Hpw. simpl in Hp. subst o.
    apply predict_http_inv in Hpw as (-> & -> & Hm & ->). auto.
  - intros [_ ->]. eauto.
Qed.

(** X5. [predict] returns a response only when the three attributes are
    set, [model] is a loaded module, the integers of the features fit a
    double, the shapes of [mean] and [std] broadcast against the feature
    row, and the model answers with exactly one logit. The response then
    carries the sigmoid of that logit and its comparison with 0.5, and the
    call has started six torch operations, in order: tensor, subtraction
    of [mean], division by [std], forward pass on the normalised batch,
    sigmoid, item. *)
Theorem predict_returns_only_if
    (features : TransactionFeatures) (w w' : world) (r : PredictionResponse) :
  predict features w = (Return r, w') →
  ∃ model mean std v n x,
    app_state w !! "model" = Some (PyModel model) ∧
    app_state w !! "mean" = Some (PyTensor mean) ∧
    app_state w !! "std" = Some (PyTensor std) ∧
    feature_vector features = Some v ∧
    normalize [v] mean std = Some n ∧
    model n = [x] ∧
    r = {| probability := f64_of_f32 (sigmoid x);
           is_fraudulent := gt64 (f64_of_f32 (sigmoid x)) half64 |} ∧
    w' = World (app_state w) (stdout w) (torch_log w ++ scoring_ops mean std n).
Proof.
  unfold predict, tensor_sub, tensor_div. intros Hp.
  apply bind_returns_inv in Hp as (model & w1 & Hg & Hp).
  apply getattr_inv in Hg as [Hmodel ->].
  destruct model as [|m|t]; [discriminate Hp | |].
  all: apply bind_returns_inv in Hp as (tensor & w1 & Ht & Hp).
  all: apply torch_tensor_inv in Ht as [Ht ->].
  all: apply mapM_row_inv in Ht as (v & Hv & ->).
  all: apply bind_returns_inv in Hp as (mean & w1 & Hg & Hp).
  all: apply getattr_inv in Hg as [Hmean ->].
  all: apply bind_returns_inv in Hp as (centred & w1 & Hc & Hp).
  all: apply tensor_binop_inv in Hc as (mu & -> & Hc & ->).
  all: apply bind_returns_inv in Hp as (std & w1 & Hg & Hp).
  all: apply getattr_inv in Hg as [Hstd ->].
  all: apply bind_returns_inv in Hp as (n & w1 & Hn & Hp).
  all: apply tensor_binop_inv in Hn as (sd & -> & Hn & ->).
  all: apply bind_returns_inv in Hp as (logits & w1 & Hl & Hp).
  all: apply call_inv in Hl as (m' & Hf & -> & ->).
  2: discriminate Hf.
  injection Hf as <-.
  apply bind_returns_inv in Hp as (probs & w1 & Hs & Hp).
  apply torch_sigmoid_inv in Hs as [-> ->].
  apply bind_returns_inv in Hp as (p & w1 & Hi & Hp).
  apply item_inv in Hi as (y & Hy & -> & ->).
  apply map_singleton_inv in Hy as (x & Hx & ->).
  injection Hp as <- <-.
  exists m, mu, sd, v, n, x.
  split; [exact Hmodel |]. split; [exact Hmean |]. split; [exact Hstd |].
  split; [exact Hv |].
  split; [unfold normalize; rewrite Hc; exact Hn |].
  split; [exact Hx |]. split; [reflexivity |].
  unfold logged, scoring_ops. simpl. rewrite <- !app_assoc. reflexivity.
Qed.

End Outcomes.

Lemma predict_returns_only_if_witness :
  ∃ model mean std v n x,
    app_state loaded_world !! "model" = Some (PyModel model) ∧
    app_state loaded_world !! "mean" = Some (PyTensor mean) ∧
    app_state loaded_world !! "std" = Some (PyTensor std) ∧
    feature_vector example_features = Some v ∧
    normalize [v] mean std = Some n ∧
    model n = [x] ∧
    {| probability := half64; is_fraudulent := false |} =
      {| probability := f64_of_f32 (sigmoid (TorchRuntime := step_runtime) x);
         is_fraudulent := gt64 (f64_of_f32 (sigmoid (TorchRuntime := step_runtime) x)) half64 |} ∧
    (predict (H := step_runtime) example_features loaded_world).2 =
      World (app_state loaded_world) (stdout loaded_world)
        (torch_log loaded_world ++ scoring_ops mean std n).
Proof.
  apply (predict_returns_only_if (H := step_runtime) example_features loaded_world).
  vm_compute. reflexivity.
Defined.

(** ** A model that does not answer with one logit *)

Section Non_scalar.
Context `{TorchRuntime} `{FieldValidators}.

(** The run of [predict] with a loaded model, whatever the model answers. *)
Lemma predict_runs_to_item features w model mean std v n :
  app_state w !! "model" = Some (PyModel model) →
  app_state w !! "mean" = Some (PyTensor mean) →
  app_state w !! "std" = Some (PyTensor std) →
  feature_vector features = Some v →
  normalize [v] mean std = Some n →
  predict features w =
    (match model n with
     | [x] => Return {| probability := f64_of_f32 (sigmoid x);
                        is_fraudulent := gt64 (f64_of_f32 (sigmoid x)) half64 |}
     | _ => Raise (RuntimeError
                     "a Tensor with this number of elements cannot be converted to Scalar")
     end,
     World (app_state w) (stdout w) (torch_log w ++ scoring_ops mean std n)).
Proof.
  intros Hmodel Hmean Hstd Hv Hn. unfold normalize in Hn.
  destruct (broadcast2 sub32 [v] mean) as [c|] eqn:Hc; [| discriminate Hn].
  simpl in Hn.
  assert (Ht : mapM (mapM scalar_to_f32)
                 [[PyFloat (amount features); PyInt (time_of_day features);
                   PyInt (mismatch features); PyInt (frequency features)]] = Some [v])
    by (apply mapM_cons_Some; [exact Hv | reflexivity]).
  unfold predict.
  rewrite (bind_returns _ _ _ _ _ (getattr_returns _ _ _ Hmodel)).
  rewrite (bind_returns _ _ _ _ _ (torch_tensor_returns _ _ _ Ht)).
  rewrite (bind_returns _ _ _ _ _ (getattr_returns "mean" _ (logged _ _) Hmean)).
  unfold tensor_sub, tensor_div.
  rewrite (bind_returns _ _ _ _ _ (tensor_binop_returns _ _ _ _ _ _ Hc)).
  rewrite (bind_returns _ _ _ _ _ (getattr_returns "std" _ (logged _ (logged _ _)) Hstd)).
  rewrite (bind_returns _ _ _ _ _ (tensor_binop_returns _ _ _ _ _ _ Hn)).
  unfold call, torch_sigmoid, item, mbind, M_bind, tick, logged, scoring_ops. simpl.
  rewrite <- !app_assoc. simpl.
  destruct (model n) as [|x [|y l]]; reflexivity.
Qed.

(** X7. With a model loaded, features that convert and parameters that
    broadcast, a model output that does not have exactly one element makes
    [predict] raise at [item], after the forward pass and the sigmoid have
    run: the exception is not an [HTTPException], [app.state] is unchanged,
    and the route answers the request with a 500. *)
Theorem predict_rejects_non_scalar_output
    (features : TransactionFeatures) (w : world) (model : ScoringModel)
    (mean std v : tensor1) (n : tensor2) :
  app_state w !! "model" = Some (PyModel model) →
  app_state w !! "mean" = Some (PyTensor mean) →
  app_state w !! "std" = Some (PyTensor std) →
  feature_vector features = Some v →
  normalize [v] mean std = Some n →
  length (model n) ≠ 1%nat →
  ∃ e,
    not_http e ∧
    predict features w =
      (Raise e,
       World (app_state w) (stdout w) (torch_log w ++ scoring_ops mean std n)) ∧
    ∀ request_body,
      validate_TransactionFeatures request_body = Some features →
      (post_predict request_body w).1 =
        Return {| status := 500; body := Detail "Internal Server Error" |}.
Proof.
  intros Hmodel Hmean Hstd Hv Hn Hlen.
  pose proof (predict_runs_to_item features w model mean std v n
                Hmodel Hmean Hstd Hv Hn) as Hp.
  destruct (model n) as [|x [|y l]]; [| contradiction Hlen; reflexivity |];
    (eexists; split; [| split; [exact Hp |]]; [exact I |]; intros request_body Hb;
     unfold post_predict; rewrite Hb, Hp; reflexivity).
Qed.

End Non_scalar.

Lemma predict_rejects_non_scalar_output_witness :
  ∃ e,
    not_http e ∧
    predict (H := step_runtime) example_features two_logit_world =
      (Raise e,
       World (app_state two_logit_world) (stdout two_logit_world)
         (torch_log two_logit_world ++
          scoring_ops placeholder_mean placeholder_std example_tensor)) ∧
    ∀ request_body,
      validate_TransactionFeatures (H := pydantic_validators) request_body
        = Some example_features →
      (post_predict (H := step_runtime) (H0 := pydantic_validators)
         request_body two_logit_world).1 =
        Return {| status := 500; body := Detail "Internal Server Error" |}.
Proof.
  apply (predict_rejects_non_scalar_output (H := step_runtime) (H0 := pydantic_validators)
           example_features two_logit_world two_logit_model
           placeholder_mean placeholder_std
           [S754_finite false 16384000 (-15); S754_finite false 14680064 (-20);
            S754_finite false 8388608 (-23); S754_finite false 12582912 (-22)]
           example_tensor);
    try (vm_compute; reflexivity).
  vm_compute. discriminate.
Defined.

(** ** What the model is called on *)

Lemma logs_post {A} st P (Q Q' : A → Prop) (m : M A) :
  logs st P Q m → (∀ w a w', m w = (Return a, w') → Q' a) → logs st P Q' m.
Proof.
  intros Hm HQ w Hw. destruct (Hm w Hw) as (Hst & Hl & _).
  split; [exact Hst |]. split; [exact Hl |].
  intros a Ha. destruct (m w) as [o w'] eqn:Hmw. simpl in Ha. subst o.
  exact (HQ _ _ _ Hmw).
Qed.

Section Model_input.
Context `{TorchRuntime} `{FieldValidators}.

(** With the placeholders set, every forward pass that [predict] starts is
    on the feature row itself. *)
Lemma predict_forwards_feature_row features w :
  placeholders_set w →
  logs (app_state w)
    (λ op, ∀ n, op = OpForward n → ∃ v, feature_vector features = Some v ∧ n = [v])
    (λ _, True) (predict features).
Proof.
  intros [Hmean Hstd]. unfold predict, tensor_sub, tensor_div.
  eapply logs_bind; [apply logs_getattr |]. intros model _.
  destruct model as [|m0|u0]; [apply logs_raise | |].
  all: eapply logs_bind;
    [eapply logs_post; [apply logs_torch_tensor; discriminate |];
     intros w1 t1 w2 Ht; exact (proj1 (torch_tensor_inv _ _ _ _ Ht)) |].
  all: intros tensor Ht; apply mapM_row_inv in Ht as (v & Hv & ->).
  all: assert (Hw : tensor_of_width 4 [v])
    by (repeat constructor;
        [exact (feature_vector_length _ _ Hv) | exact (feature_vector_valid _ _ Hv)]).
  all: eapply logs_bind; [apply logs_getattr |]; intros mean Hm.
  all: rewrite Hmean in Hm; injection Hm as <-.
  all: eapply logs_bind;
    [eapply logs_post; [apply logs_tensor_binop; discriminate |];
     intros w1 c w2 Hc; apply tensor_binop_inv in Hc as (u & Hu & Hc & _);
     injection Hu as <-; rewrite (broadcast2_sub_placeholder _ Hw) in Hc;
     injection Hc as Hc; exact Hc |].
  all: intros centred <-.
  all: eapply logs_bind; [apply logs_getattr |]; intros std Hs.
  all: rewrite Hstd in Hs; injection Hs as <-.
  all: eapply logs_bind;
    [eapply logs_post; [apply logs_tensor_binop; discriminate |];
     intros w1 c w2 Hc; apply tensor_binop_inv in Hc as (u & Hu & Hc & _);
     injection Hu as <-; rewrite (broadcast2_div_placeholder _ Hw) in Hc;
     injection Hc as Hc; exact Hc |].
  all: intros n_tensor <-.
  all: eapply logs_bind; [apply logs_call; intros n [= <-]; eauto |]; intros logits _.
  all: eapply logs_bind; [apply logs_torch_sigmoid; discriminate |]; intros probs _.
  all: eapply logs_bind; [apply logs_item; discriminate |]; intros p _.
  all: apply logs_ret; trivial.
Qed.

(** X6. In every world the service can be in after startup, whenever a call
    of [predict] runs the model, it runs it on the batch whose single row is
    the feature vector [[amount, time_of_day, mismatch, frequency]] converted
    to float32: four float32 values, untouched by the normalisation. *)
Theorem model_input_is_feature_row
    (w : world) (features : TransactionFeatures) (n : tensor2) :
  reachable w →
  OpForward n ∈ new_ops (predict features) w →
  ∃ v, feature_vector features = Some v ∧ n = [v] ∧
       length v = 4%nat ∧ Forall valid32 v.
Proof.
  intros Hw Hin.
  pose proof (new_ops_logs _ _ _ _ w
                (predict_forwards_feature_row features w (reachable_placeholders w Hw))
                eq_refl) as Hops.
  rewrite Forall_forall in Hops. destruct (Hops _ Hin n eq_refl) as (v & Hv & ->).
  exists v. split; [exact Hv |]. split; [reflexivity |].
  split; [exact (feature_vector_length _ _ Hv) | exact (feature_vector_valid _ _ Hv)].
Qed.

End Model_input.

Lemma model_input_is_feature_row_witness :
  ∃ v, feature_vector example_features = Some v ∧ example_tensor = [v] ∧
       length v = 4%nat ∧ Forall valid32 v.
Proof.
  apply (model_input_is_feature_row (H := step_runtime) (H0 := pydantic_validators)
           loaded_world example_features example_tensor).
  - apply (reach_startup (LoadOk zero_model) empty_world). reflexivity.
  - assert (new_ops (predict (H := step_runtime) example_features) loaded_world =
            scoring_ops placeholder_mean placeholder_std example_tensor) as ->
      by (vm_compute; reflexivity).
    unfold scoring_ops. do 3 apply list_elem_of_further. apply list_elem_of_here.
Defined.

(** ** The status of the answer *)

Section Status.
Context `{TorchRuntime} `{FieldValidators}.

(** The four ways in which the route answers. *)
Lemma post_predict_cases request_body w :
  (validate_TransactionFeatures request_body = None ∧
   post_predict request_body w =
     (Return {| status := 422; body := ValidationErrors |}, w)) ∨
  (∃ f p w', validate_TransactionFeatures request_body = Some f ∧
     predict f w = (Return p, w') ∧
     post_predict request_body w =
       (Return {| status := 200; body := Prediction p |}, w')) ∨
  (∃ f, validate_TransactionFeatures request_body = Some f ∧
     app_state w !! "model" = Some PyNone ∧
     post_predict request_body w =
       (Return {| status := 503; body := Detail "Model is not loaded." |}, w)) ∨
  (∃ f e w', validate_TransactionFeatures request_body = Some f ∧
     predict f w = (Raise e, w') ∧ not_http e ∧
     post_predict request_body w =
       (Return {| status := 500; body := Detail "Internal Server Error" |}, w')).
Proof.
  unfold post_predict.
  destruct (validate_TransactionFeatures request_body) as [f|]; [| left; auto].
  right. destruct (predict f w) as [[p|e] w'] eqn:Hp.
  - left. exists f, p, w'. auto.
  - right. destruct e as [msg|attr|msg|msg|msg|code detail| |];
      try (right; eexists f, _, w';
           split; [reflexivity |]; split; [exact Hp |]; split; [exact I | reflexivity]).
    left. apply predict_http_inv in Hp as (-> & -> & Hm & ->). exists f. auto.
Qed.

(** X8. The route always answers, and the status of its answer is decided
    as follows: 422 exactly when the body does not validate; 503 exactly when
    the body validates and [app.state.model] is [None]; 200 exactly when the
    body validates and [predict] returns, the answer then carrying the
    response of [predict]; any other failure of [predict] gives 500. No
    other status occurs. *)
Theorem post_predict_status (request_body : JSON) (w : world) :
  ∃ r w', post_predict request_body w = (Return r, w') ∧
    (status r = 422 ↔ validate_TransactionFeatures request_body = None) ∧
    (status r = 503 ↔
       ∃ f, validate_TransactionFeatures request_body = Some f ∧
            app_state w !! "model" = Some PyNone) ∧
    (status r = 200 ↔
       ∃ f p, validate_TransactionFeatures request_body = Some f ∧
              (predict f w).1 = Return p ∧ body r = Prediction p) ∧
    (status r = 200 ∨ status r = 422 ∨ status r = 500 ∨ status r = 503).
Proof.
  destruct (post_predict_cases request_body w)
    as [[Hv ->] | [(f & p & w' & Hv & Hp & ->) | [(f & Hv & Hm & ->)
       | (f & e & w' & Hv & Hp & He & ->)]]];
    do 2 eexists; (split; [reflexivity |]); simpl; rewrite Hv.
  - split; [split; reflexivity |]. split; [| split; [| auto]].
    + split; [discriminate |]. intros (f & Hf & _). discriminate Hf.
    + split; [discriminate |]. intros (f & p & Hf & _). discriminate Hf.
  - split; [split; discriminate |]. split; [| split; [| auto]].
    + split; [discriminate |]. intros (f' & [= <-] & Hm).
      rewrite (predict_model_absent f w Hm) in Hp. discriminate Hp.
    + split; [intros _; exists f, p; rewrite Hp; auto | reflexivity].
  - split; [split; discriminate |]. split; [| split; [| auto 6]].
    + split; [intros _; exists f; auto | reflexivity].
    + split; [discriminate |]. intros (f' & p & [= <-] & Hp & _).
      rewrite (predict_model_absent f w Hm) in Hp. discriminate Hp.
  - split; [split; discriminate |]. split; [| split; [| auto 6]].
    + split; [discriminate |]. intros (f' & [= <-] & Hm).
      rewrite (predict_model_absent f w Hm) in Hp. injection Hp as <- _. destruct He.
    + split; [discriminate |]. intros (f' & p & [= <-] & Hp' & _).
      rewrite Hp in Hp'. discriminate Hp'.
Qed.

End Status.

(** ** The decision on special probabilities *)

Section Decision.
Context `{TorchRuntime}.

Lemma gt_half_positive (p : f64) : gt64 p half64 = true → positive_number p.
Proof.
  unfold gt64, SFltb, half64.
  destruct p as [s|[]| |[] m e]; simpl; try discriminate; intros _; exact I.
Qed.

(** X9. A response of [predict] is flagged as fraudulent only when its
    probability is a positive number; in particular a NaN probability, as a
    NaN logit gives, is never flagged: [NaN > 0.5] is false. *)
Theorem flagged_only_if_positive
    (features : TransactionFeatures) (w w' : world) (r : PredictionResponse) :
  predict features w = (Return r, w') →
  (is_fraudulent r = true → positive_number (probability r)) ∧
  (probability r = S754_nan → is_fraudulent r = false).
Proof.
  intros Hp. apply predict_returns_inv in Hp as [p ->]. simpl.
  split; [apply gt_half_positive | intros ->; reflexivity].
Qed.

(** ** Requests do not influence each other *)

Lemma serve_agree requests w1 w2 :
  agree_on ["model"; "mean"; "std"] w1 w2 →
  (serve requests w1).1 = (serve requests w2).1.
Proof.
  revert w1 w2. induction requests as [|f rest IH]; intros w1 w2 Hw; [reflexivity |].
  simpl. destruct (reads_only_predict f w1 w2 Hw) as [Ho Hw'].
  destruct (predict f w1) as [o1 w1'], (predict f w2) as [o2 w2']. simpl in *.
  specialize (IH w1' w2' Hw').
  destruct (serve rest w1') as [os1 w1''], (serve rest w2') as [os2 w2''].
  simpl in *. congruence.
Qed.

Lemma serve_read_only requests w :
  app_state (serve requests w).2 = app_state w ∧ stdout (serve requests w).2 = stdout w.
Proof.
  revert w. induction requests as [|f rest IH]; intros w; [split; reflexivity |].
  simpl. destruct (read_only_predict f w) as [Hs Ho].
  destruct (predict f w) as [o w']. specialize (IH w').
  destruct (serve rest w') as [os w'']. simpl in *.
  destruct IH as [-> ->]. split; assumption.
Qed.

(** X10. Calls of [predict] do not influence each other: in a sequence of
    calls, each outcome is the one the call would have had as the first
    call, and after the whole sequence [app.state] and stdout are as they
    were before it. *)
Theorem serve_requests_independent (requests : list TransactionFeatures) (w : world) :
  (serve requests w).1 = map (λ f, (predict f w).1) requests ∧
  app_state (serve requests w).2 = app_state w ∧
  stdout (serve requests w).2 = stdout w.
Proof.
  split; [| apply serve_read_only].
  induction requests as [|f rest IH]; [reflexivity |].
  simpl. pose proof (read_only_predict f w) as [Hs _].
  assert (Hagree : agree_on ["model"; "mean"; "std"] (predict f w).2 w)
    by (intros k _; rewrite Hs; reflexivity).
  pose proof (serve_agree rest _ _ Hagree) as Hrest.
  destruct (predict f w) as [o w']. simpl in *.
  destruct (serve rest w') as [os w'']. simpl in *.
  rewrite Hrest, IH. reflexivity.
Qed.

End Decision.

Lemma flagged_only_if_positive_witness :
  (is_fraudulent {| probability := S754_nan; is_fraudulent := false |} = true →
   positive_number (probability {| probability := S754_nan; is_fraudulent := false |})) ∧
  (probability {| probability := S754_nan; is_fraudulent := false |} = S754_nan →
   is_fraudulent {| probability := S754_nan; is_fraudulent := false |} = false).
Proof.
  apply (flagged_only_if_positive (H := step_runtime) example_features nan_world
           (predict (H := step_runtime) example_features nan_world).2).
  vm_compute. reflexivity.
Defined.

(** ** The life cycle beyond a caught load error *)

Section Lifecycle.
Context `{TorchRuntime}.

(** X3. Startup raises exactly when loading the artifact raised an
    exception that is not an instance of [Exception] (a [KeyboardInterrupt]
    or a [SystemExit]): no [except] clause matches it, the exception
    propagates out of [lifespan], and the world is left as it was, so that
    [model], [mean] and [std] are not set by this startup. *)
Theorem lifespan_startup_raises_iff
    (o : load_outcome) (w w' : world) (e : exn) :
  lifespan_startup o w = (Raise e, w') ↔
  o = LoadRaises e ∧ isinstance_Exception e = false ∧ w' = w.
Proof.
  split.
  - destruct o as [m|e0].
    + rewrite lifespan_startup_loaded. discriminate.
    + destruct (isinstance_Exception e0) eqn:He0.
      * rewrite lifespan_startup_caught by exact He0. discriminate.
      * rewrite lifespan_startup_uncaught by exact He0. intros [= <- <-]. auto.
  - intros (-> & He & ->). apply lifespan_startup_uncaught, He.
Qed.

(** X4. [lifespan] writes only its own attributes: startup, whatever the
    load did, leaves every attribute of [app.state] other than [model],
    [mean] and [std]; shutdown sets [model] to [None], leaves every other
    attribute, [mean] and [std] among them, and prints nothing. *)
Theorem lifespan_writes_only_its_attributes
    (o : load_outcome) (w : world) (name : string) :
  (name ∉ ["model"; "mean"; "std"] →
   app_state (lifespan_startup o w).2 !! name = app_state w !! name) ∧
  (name ≠ "model" →
   app_state (lifespan_shutdown w).2 !! name = app_state w !! name) ∧
  app_state (lifespan_shutdown w).2 !! "model" = Some PyNone ∧
  stdout (lifespan_shutdown w).2 = stdout w.
Proof.
  assert (Hstart : ∀ model, name ∉ ["model"; "mean"; "std"] →
            started model w !! name = app_state w !! name).
  { intros model Hn. unfold started. rewrite !lookup_insert_ne by set_solver. reflexivity. }
  split; [| split; [| split]].
  - intros Hn. destruct o as [m|e].
    + rewrite lifespan_startup_loaded. apply Hstart, Hn.
    + destruct (isinstance_Exception e) eqn:He.
      * rewrite lifespan_startup_caught by exact He. apply Hstart, Hn.
      * rewrite lifespan_startup_uncaught by exact He. reflexivity.
  - intros Hn. simpl. rewrite lookup_insert_ne by congruence. reflexivity.
  - simpl. apply lookup_insert_eq.
  - reflexivity.
Qed.

(** X2. After shutdown every call of [predict] raises the 503, whether or
    not a model had been loaded, and leaves the world as it was. *)
Theorem predict_after_shutdown (w : world) (requests : list TransactionFeatures) :
  serve requests (lifespan_shutdown w).2 =
    (map (λ _, Raise (HTTPException 503 "Model is not loaded.")) requests,
     (lifespan_shutdown w).2).
Proof.
  assert (Hm : app_state (lifespan_shutdown w).2 !! "model" = Some PyNone)
    by (simpl; apply lookup_insert_eq).
  induction requests as [|f rest IH]; simpl serve.
  - reflexivity.
  - rewrite (predict_model_absent f _ Hm), IH. reflexivity.
Qed.

End Lifecycle.

(** ** What the startup line tells *)

(** X11. A startup that returns prints exactly one line, and the line tells
    the state of the model: it is "PyTorch model loaded successfully."
    exactly when [app.state.model] holds a loaded module, and one of the two
    error lines exactly when [app.state.model] is [None]. *)
Theorem startup_line_tells_model (o : load_outcome) (w w' : world) :
  lifespan_startup o w = (Return (), w') →
  ∃ line,
    stdout w' = stdout w ++ [line] ∧
    (line = "PyTorch model loaded successfully." ↔
       ∃ m, app_state w' !! "model" = Some (PyModel m)) ∧
    (line ≠ "PyTorch model loaded successfully." ↔
       app_state w' !! "model" = Some PyNone).
Proof.
  destruct o as [m|e].
  - rewrite lifespan_startup_loaded. intros [= <-]. eexists. split; [reflexivity |].
    simpl app_state. rewrite started_model. split.
    + split; [eauto | reflexivity].
    + split; [intros Hn; contradiction Hn; reflexivity | discriminate].
  - destruct (isinstance_Exception e) eqn:He.
    + rewrite lifespan_startup_caught by exact He. intros [= <-].
      eexists. split; [reflexivity |]. simpl app_state. rewrite started_model.
      assert (Hline : load_error_line e ≠ "PyTorch model loaded successfully.")
        by (destruct e; discriminate).
      split.
      * split; [intros Hl; contradiction | intros [m Hm]; discriminate Hm].
      * split; [reflexivity | intros _; exact Hline].
    + rewrite lifespan_startup_uncaught by exact He. discriminate.
Qed.

Lemma startup_line_tells_model_witness :
  ∃ line,
    stdout absent_world = stdout empty_world ++ [line] ∧
    (line = "PyTorch model loaded successfully." ↔
       ∃ m, app_state absent_world !! "model" = Some (PyModel m)) ∧
    (line ≠ "PyTorch model loaded successfully." ↔
       app_state absent_world !! "model" = Some PyNone).
Proof.
  apply (startup_line_tells_model
           (LoadRaises (FileNotFoundError "No such file: 'fraud_prevention_model.pt'"))
           empty_world absent_world).
  reflexivity.
Defined.

(** ** The failures of a running service *)

Section Failures.
Context `{TorchRuntime} `{FieldValidators}.

Lemma lifespan_startup_model_set o w w' :
  lifespan_startup o w = (Return (), w') → model_set w'.
Proof.
  unfold model_set. destruct o as [m|e].
  - rewrite lifespan_startup_loaded. intros [= <-]. right. exists m. apply started_model.
  - destruct (isinstance_Exception e) eqn:He.
    + rewrite lifespan_startup_caught by exact He. intros [= <-]. left. apply started_model.
    + rewrite lifespan_startup_uncaught by exact He. discriminate.
Qed.

Lemma reachable_model_set w : reachable w → model_set w.
Proof.
  induction 1 as [o w0 w Hstart | w w' _ IH Hstep].
  - exact (lifespan_startup_model_set _ _ _ Hstart).
  - destruct Hstep.
    + unfold model_set. rewrite post_predict_preserves_state. exact IH.
    + left. simpl. apply lookup_insert_eq.
Qed.

Lemma predict_overflow features w model :
  app_state w !! "model" = Some (PyModel model) →
  feature_vector features = None →
  predict features w =
    (Raise (OverflowError "int too large to convert to float"), logged OpTensor w).
Proof.
  intros Hmodel Hv. unfold predict.
  rewrite (bind_returns _ _ _ _ _ (getattr_returns _ _ _ Hmodel)).
  unfold torch_tensor, mbind at 1 2, M_bind at 1 2, tick.
  change (mapM (mapM scalar_to_f32)
            [[PyFloat (amount features); PyInt (time_of_day features);
              PyInt (mismatch features); PyInt (frequency features)]])
    with (y ← feature_vector features;
          k ← mapM (mapM scalar_to_f32) []; mret (y :: k)).
  rewrite Hv. reflexivity.
Qed.

(** X13. Once the service has started, a call of [predict] fails in one of
    three cases only: the model is [None], and the failure is the 503; an
    integer of the features does not fit a double; the loaded model does not
    answer the feature row with exactly one element. In the last two cases
    the exception is not an [HTTPException]. A call never fails on a missing
    attribute or on the type or shape of [mean] and [std]. *)
Theorem reachable_predict_failures
    (w w' : world) (features : TransactionFeatures) (e : exn) :
  reachable w →
  predict features w = (Raise e, w') →
  (e = HTTPException 503 "Model is not loaded." ∧
   app_state w !! "model" = Some PyNone) ∨
  (not_http e ∧ feature_vector features = None) ∨
  (∃ m v, not_http e ∧
     app_state w !! "model" = Some (PyModel m) ∧
     feature_vector features = Some v ∧ length (m [v]) ≠ 1%nat).
Proof.
  intros Hw Hp.
  destruct (reachable_placeholders w Hw) as [Hmean Hstd].
  destruct (reachable_model_set w Hw) as [Hm | [m Hm]].
  - left. rewrite (predict_model_absent features w Hm) in Hp.
    injection Hp as <- _. auto.
  - right. destruct (feature_vector features) as [v|] eqn:Hv.
    + right.
      assert (Ht : tensor_of_width 4 [v])
        by (repeat constructor;
            [exact (feature_vector_length _ _ Hv) | exact (feature_vector_valid _ _ Hv)]).
      assert (Hn : normalize [v] placeholder_mean placeholder_std = Some [v]).
      { unfold normalize. rewrite (broadcast2_sub_placeholder _ Ht).
        exact (broadcast2_div_placeholder _ Ht). }
      rewrite (predict_runs_to_item features w m _ _ v [v] Hm Hmean Hstd Hv Hn) in Hp.
      destruct (m [v]) as [|x [|y l]] eqn:Hout.
      * injection Hp as <- _. exists m, v. rewrite Hout.
        split; [exact I |]. repeat split; auto.
      * discriminate Hp.
      * injection Hp as <- _. exists m, v. rewrite Hout.
        split; [exact I |]. repeat split; auto.
    + left. rewrite (predict_overflow features w m Hm Hv) in Hp.
      injection Hp as <- _. split; [exact I | reflexivity].
Qed.

(** X12. The probability of a response is the output of the sigmoid on
    the single logit of the model, widened to a Python float: it is a
    well-formed double, and when the sigmoid returned a float32 value the
    widening is exact, so that the probability denotes the very number the
    sigmoid returned. *)
Theorem probability_is_widened_float32
    (features : TransactionFeatures) (w w' : world) (r : PredictionResponse) :
  predict features w = (Return r, w') →
  ∃ model mean std v n x,
    app_state w !! "model" = Some (PyModel model) ∧
    app_state w !! "mean" = Some (PyTensor mean) ∧
    app_state w !! "std" = Some (PyTensor std) ∧
    feature_vector features = Some v ∧
    normalize [v] mean std = Some n ∧
    model n = [x] ∧
    probability r = f64_of_f32 (sigmoid x) ∧
    valid64 (probability r) ∧
    (valid32 (sigmoid x) → same_number (sigmoid x) (probability r)).
Proof.
  unfold predict, tensor_sub, tensor_div. intros Hp.
  apply bind_returns_inv in Hp as (model & w1 & Hg & Hp).
  apply getattr_inv in Hg as [Hmodel ->].
  destruct model as [|m|t]; [discriminate Hp | |].
  all: apply bind_returns_inv in Hp as (tensor & w1 & Ht & Hp).
  all: apply torch_tensor_inv in Ht as [Ht ->].
  all: apply mapM_row_inv in Ht as (v & Hv & ->).
  all: apply bind_returns_inv in Hp as (mean & w1 & Hg & Hp).
  all: apply getattr_inv in Hg as [Hmean ->].
  all: apply bind_returns_inv in Hp as (centred & w1 & Hc & Hp).
  all: apply tensor_binop_inv in Hc as (mu & -> & Hc & ->).
  all: apply bind_returns_inv in Hp as (std & w1 & Hg & Hp).
  all: apply getattr_inv in Hg as [Hstd ->].
  all: apply bind_returns_inv in Hp as (n & w1 & Hn & Hp).
  all: apply tensor_binop_inv in Hn as (sd & -> & Hn & ->).
  all: apply bind_returns_inv in Hp as (logits & w1 & Hl & Hp).
  all: apply call_inv in Hl as (m' & Hf & -> & ->).
  2: discriminate Hf.
  injection Hf as <-.
  apply bind_returns_inv in Hp as (probs & w1 & Hs & Hp).
  apply torch_sigmoid_inv in Hs as [-> ->].
  apply bind_returns_inv in Hp as (p & w1 & Hi & Hp).
  apply item_inv in Hi as (y & Hy & -> & ->).
  apply map_singleton_inv in Hy as (x & Hx & ->).
  injection Hp as <- _.
  exists m, mu, sd, v, n, x.
  split; [exact Hmodel |]. split; [exact Hmean |]. split; [exact Hstd |].
  split; [exact Hv |].
  split; [unfold normalize; rewrite Hc; exact Hn |].
  split; [exact Hx |]. simpl.
  split; [reflexivity |]. split; [apply f64_of_f32_valid | apply f64_of_f32_exact].
Qed.

End Failures.

Lemma reachable_predict_failures_witness :
  (RuntimeError "a Tensor with this number of elements cannot be converted to Scalar"
     = HTTPException 503 "Model is not loaded." ∧
   app_state two_logit_world !! "model" = Some PyNone) ∨
  (not_http
     (RuntimeError "a Tensor with this number of elements cannot be converted to Scalar") ∧
   feature_vector example_features = None) ∨
  (∃ m v,
     not_http
       (RuntimeError "a Tensor with this number of elements cannot be converted to Scalar") ∧
     app_state two_logit_world !! "model" = Some (PyModel m) ∧
     feature_vector example_features = Some v ∧ length (m [v]) ≠ 1%nat).
Proof.
  apply (reachable_predict_failures (H := step_runtime) (H0 := pydantic_validators)
           two_logit_world
           (predict (H := step_runtime) example_features two_logit_world).2
           example_features).
  - apply (reach_startup (LoadOk two_logit_model) empty_world). reflexivity.
  - vm_compute. reflexivity.
Defined.

Lemma probability_is_widened_float32_witness :
  ∃ model mean std v n x,
    app_state loaded_world !! "model" = Some (PyModel model) ∧
    app_state loaded_world !! "mean" = Some (PyTensor mean) ∧
    app_state loaded_world !! "std" = Some (PyTensor std) ∧
    feature_vector example_features = Some v ∧
    normalize [v] mean std = Some n ∧
    model n = [x] ∧
    probability {| probability := half64; is_fraudulent := false |} =
      f64_of_f32 (sigmoid (TorchRuntime := step_runtime) x) ∧
    valid64 (probability {| probability := half64; is_fraudulent := false |}) ∧
    (valid32 (sigmoid (TorchRuntime := step_runtime) x) →
     same_number (sigmoid (TorchRuntime := step_runtime) x)
       (probability {| probability := half64; is_fraudulent := false |})).
Proof.
  apply (probability_is_widened_float32 (H := step_runtime) example_features loaded_world
           (predict (H := step_runtime) example_features loaded_world).2).
  vm_compute. reflexivity.
Defined.
